(** * anchor-web-app: transaction polling, decimal transforms, dates

    A shallow embedding of the logic of the web application that has
    behaviour of its own, and the properties the specification states
    about it:

    - [TxPolling]: [queryOptions.fetchClient], the loop that re-queries the
      indexer after a transaction was posted;
    - [BigJs], [BigMath]: the decimal numbers of big.js and the helpers of
      @anchor-protocol/big-math that the transforms call;
    - [InterestEarned], [SellFromSimulation]: [dataMap.interestEarned] and
      [sellFromSimulation];
    - [Dates]: [getDates] and [mapVariables], with date-fns' [sub];
    - [App]: the routes of [App.tsx]; [PollDetail]: the quorum label;
    - [Ambient]: the two transforms as calls in a state that holds the
      settings of big.js;
    - [TraceMeasures], [SellSamples], [Digits]: measures, inputs and the
      digit values that the later properties use.

    The definitions come first, module by module; the lemmas and theorems
    follow in the same order.
*)

From Stdlib Require Import ZArith QArith Qround Qabs Qminmax.
From Stdlib Require Import List String Ascii Bool Lia.
From Stdlib Require Import DecimalString DecimalN.
From Stdlib Require Import Lqa.
Import ListNotations.

Open Scope string_scope.
Open Scope list_scope.

(* ================================================================= *)
(** * Transaction confirmation polling *)
(* ================================================================= *)

Module TxPolling.

(** [TxResult] of [api/transactions/tx]: the fields that [fetchClient]
    reads ([success], [msgs] and [result.txhash]). *)
Record TxResultBody := { txhash : string }.

Record TxResult := {
  success : bool;
  msgs : list string;
  result : TxResultBody
}.

(** One record of the [Data] list of [api/queries/txInfos];
    [RawLog.toString()] is the string carried here. *)
Record TxInfo := {
  Success : bool;
  RawLog : string
}.

(** What the function throws. *)
Inductive Thrown :=
| TxError (m : list string)     (* new TxError(txResult.msgs) *)
| Error (message : string)      (* new Error(fail.RawLog.toString()) *)
| stopSignal.                   (* throw stopSignal *)

Inductive Outcome :=
| Return (txResult : TxResult) (txInfos : list TxInfo)
| Throw (e : Thrown).

(** The calls the function makes to the outside, in order. *)
Inductive Event :=
| inProgressUpdate (txResult : TxResult)
| queryTxInfo (hash : string)
| sleep (ms : Z).

(** The outside world as the loop observes it: the value of
    [signal.aborted] when the loop reads it at the top of its [i]-th
    iteration (counted from 0), and the [parsedData] that the [i]-th
    call of [queryTxInfo] resolves to. *)
Record World := {
  aborted : nat -> bool;
  indexer : nat -> string -> list TxInfo
}.

(** The body of [while (true)], started at iteration [i].  The source
    loop has no counter; [fuel] bounds the iterations that are unfolded,
    and [None] for the outcome says that the loop is still running when
    the fuel is used up. *)
Fixpoint poll (w : World) (txResult : TxResult) (fuel i : nat)
  : list Event * option Outcome :=
  match fuel with
  | O => ([], None)
  | S fuel' =>
    if aborted w i then ([], Some (Throw stopSignal))
    else
      let hash := txhash (result txResult) in
      let txInfos := indexer w i hash in
      if (0 <? List.length txInfos)%nat then
        match find (fun t => negb (Success t)) txInfos with
        | Some fail => ([queryTxInfo hash], Some (Throw (Error (RawLog fail))))
        | None => ([queryTxInfo hash], Some (Return txResult txInfos))
        end
      else
        let '(tr, out) := poll w txResult fuel' (S i) in
        (queryTxInfo hash :: sleep 500 :: tr, out)
  end.

(** [fetchClient], from the point where [await stopWithAbortSignal(post,
    signal)] has produced [txResult]. *)
Definition fetchClient (w : World) (txResult : TxResult) (fuel : nat)
  : list Event * option Outcome :=
  if negb (success txResult) then ([], Some (Throw (TxError (msgs txResult))))
  else
    let '(tr, out) := poll w txResult fuel 0 in
    (inProgressUpdate txResult :: tr, out).

(** [n] rounds of a query that found nothing, each followed by its sleep. *)
Fixpoint emptyRounds (hash : string) (n : nat) : list Event :=
  match n with
  | O => []
  | S n' => queryTxInfo hash :: sleep 500 :: emptyRounds hash n'
  end.

Definition isQuery (e : Event) : bool :=
  match e with queryTxInfo _ => true | _ => false end.

Definition queries (tr : list Event) : nat :=
  List.length (filter isQuery tr).

(** The loop reaches iteration [k]: every earlier iteration saw the
    signal not aborted and an empty answer. *)
Definition reaches (w : World) (hash : string) (k : nat) : Prop :=
  forall j, (j < k)%nat -> aborted w j = false /\ indexer w j hash = [].

(** The shape of the traces of the loop. *)
Inductive PollTrace (hash : string) : list Event -> Prop :=
| PT_stop : PollTrace hash []
| PT_last : PollTrace hash [queryTxInfo hash]
| PT_round tr :
    PollTrace hash tr ->
    PollTrace hash (queryTxInfo hash :: sleep 500 :: tr).

(** The answer of the function to a non-empty list of records. *)
Definition verdict (txResult : TxResult) (txInfos : list TxInfo) : Outcome :=
  match find (fun t => negb (Success t)) txInfos with
  | Some fail => Throw (Error (RawLog fail))
  | None => Return txResult txInfos
  end.

(** Concrete worlds and results used as inputs below. *)
Definition tx_ok : TxResult :=
  {| success := true; msgs := []; result := {| txhash := "A1B2" |} |}.

Definition tx_failed : TxResult :=
  {| success := false; msgs := ["out of gas"]; result := {| txhash := "" |} |}.

Definition info_ok : TxInfo := {| Success := true; RawLog := "[]" |}.
Definition info_bad : TxInfo := {| Success := false; RawLog := "insufficient funds" |}.

(** The indexer never has the transaction and nobody aborts. *)
Definition w_silent : World :=
  {| aborted := fun _ => false; indexer := fun _ _ => [] |}.

(** The indexer has the transaction at once, but the signal is already
    aborted when the loop starts. *)
Definition w_aborted : World :=
  {| aborted := fun _ => true; indexer := fun _ _ => [info_ok] |}.

(** The indexer has the transaction from the third query on. *)
Definition w_third (infos : list TxInfo) : World :=
  {| aborted := fun _ => false;
     indexer := fun i _ => if (i <? 2)%nat then [] else infos |}.

(** The signal is aborted from the third iteration on. *)
Definition w_abort_third : World :=
  {| aborted := fun i => (2 <=? i)%nat; indexer := fun _ _ => [] |}.

End TxPolling.


(* ================================================================= *)
(** * Decimal numbers: big.js and @anchor-protocol/big-math *)
(* ================================================================= *)

Module BigJs.

(** What the decimal code throws. *)
Inductive JsError :=
| TypeError            (* a property of [undefined] was read *)
| InvalidNumber        (* big.js: [Invalid number] *)
| DivisionByZero.      (* big.js: [Division by zero] *)

Inductive result (A : Type) :=
| Ok (a : A)
| Throw (e : JsError).

Arguments Ok {A} a.
Arguments Throw {A} e.

Definition bind {A B : Type} (r : result A) (k : A -> result B) : result B :=
  match r with
  | Ok a => k a
  | Throw e => Throw e
  end.

Notation "x <- r ;; k" := (bind r (fun x => k))
  (at level 61, r at next level, right associativity).

(** [try { body } catch { handler }] *)
Definition try_catch {A : Type} (body : result A) (handler : result A) : result A :=
  match body with
  | Ok a => Ok a
  | Throw _ => handler
  end.

Fixpoint pow10 (n : nat) : positive :=
  match n with
  | O => 1%positive
  | S n' => (10 * pow10 n')%positive
  end.

(** A [Big] is a finite decimal: the integer [coef] with the decimal point
    moved [scale] places to the left, [coef / 10^scale].  big.js stores
    the same number as a sign, a digit array and an exponent; the sign of
    a zero, which big.js keeps, is not represented. *)
Record Big := mkBig { coef : Z; scale : nat }.

(** The rational number a [Big] stands for. *)
Definition toQ (b : Big) : Q := coef b # pow10 (scale b).

(** The [BigSource] type of big.js, [string | number | Big].  A number is
    converted through its decimal string by big.js, and is carried here as
    that string: the literals [1] and [0.1] of the source are ["1"] and
    ["0.1"]. *)
Inductive BigSource :=
| SrcString (s : string)
| SrcBig (b : Big).

Coercion SrcString : string >-> BigSource.
Coercion SrcBig : Big >-> BigSource.

(** ** Parsing: [new Big(string)]

    The strings accepted are those of big.js' numeric pattern, letter
    case ignored: an optional [-]; digits with an optional point and at
    least one digit on one side of it; and an optional exponent, [e] with
    an optional sign and digits. *)

Fixpoint splitDot (s : string) : string * option string :=
  match s with
  | EmptyString => (EmptyString, None)
  | String c s' =>
    if Ascii.eqb c "." then (EmptyString, Some s')
    else let '(i, f) := splitDot s' in (String c i, f)
  end.

Definition isE (c : ascii) : bool := Ascii.eqb c "e" || Ascii.eqb c "E".

Fixpoint splitExp (s : string) : string * option string :=
  match s with
  | EmptyString => (EmptyString, None)
  | String c s' =>
    if isE c then (EmptyString, Some s')
    else let '(m, e) := splitExp s' in (String c m, e)
  end.

(** Digits with an optional point. *)
Definition parseMantissa (s : string) : result Big :=
  let '(i, fo) := splitDot s in
  let f := match fo with Some f => f | None => EmptyString end in
  match (i ++ f)%string with
  | EmptyString => Throw InvalidNumber
  | digits =>
    match NilEmpty.uint_of_string digits with
    | Some u => Ok (mkBig (Z.of_N (N.of_uint u)) (String.length f))
    | None => Throw InvalidNumber
    end
  end.

(** The exponent after the [e]: an optional sign and digits. *)
Definition parseExponent (s : string) : result Z :=
  let '(negative, digits) :=
    match s with
    | String c s' =>
      if Ascii.eqb c "-" then (true, s')
      else if Ascii.eqb c "+" then (false, s')
      else (false, s)
    | EmptyString => (false, s)
    end in
  match digits with
  | EmptyString => Throw InvalidNumber
  | _ =>
    match NilEmpty.uint_of_string digits with
    | Some u =>
        Ok (if negative : bool then (- Z.of_N (N.of_uint u))%Z
            else Z.of_N (N.of_uint u))
    | None => Throw InvalidNumber
    end
  end.

(** [b * 10^e] *)
Definition shift (b : Big) (e : Z) : Big :=
  if (e <? 0)%Z then mkBig (coef b) (scale b + Z.to_nat (- e))
  else if (e <=? Z.of_nat (scale b))%Z then mkBig (coef b) (scale b - Z.to_nat e)
  else mkBig (coef b * Zpos (pow10 (Z.to_nat e - scale b))) 0.

Definition parseUnsigned (s : string) : result Big :=
  let '(m, eo) := splitExp s in
  b <- parseMantissa m ;;
  match eo with
  | None => Ok b
  | Some es => e <- parseExponent es ;; Ok (shift b e)
  end.

Definition negate (b : Big) : Big := mkBig (- coef b) (scale b).

Definition parse (s : string) : result Big :=
  match s with
  | String c s' =>
    if Ascii.eqb c "-" then b <- parseUnsigned s' ;; Ok (negate b)
    else parseUnsigned s
  | EmptyString => parseUnsigned s
  end.

(** [big(v)], [new Big(v)]. *)
Definition big (v : BigSource) : result Big :=
  match v with
  | SrcString s => parse s
  | SrcBig b => Ok b
  end.

(** ** Arithmetic on parsed numbers *)

Definition Badd (x y : Big) : Big :=
  let s := Nat.max (scale x) (scale y) in
  mkBig (coef x * Zpos (pow10 (s - scale x)) + coef y * Zpos (pow10 (s - scale y))) s.

Definition Bsub (x y : Big) : Big :=
  let s := Nat.max (scale x) (scale y) in
  mkBig (coef x * Zpos (pow10 (s - scale x)) - coef y * Zpos (pow10 (s - scale y))) s.

Definition Bmul (x y : Big) : Big :=
  mkBig (coef x * coef y) (scale x + scale y).

Definition Bcmp (x y : Big) : comparison :=
  (coef x * Zpos (pow10 (scale y)) ?= coef y * Zpos (pow10 (scale x)))%Z.

Definition Bgt (x y : Big) : bool :=
  match Bcmp x y with Gt => true | _ => false end.

(** [Big.DP], the number of decimal places of a quotient, and [Big.RM],
    the rounding mode, at the defaults of big.js: 20 places, half up
    (a tie moves away from zero). *)
Definition DP : nat := 20.

Definition Bdiv (x y : Big) : result Big :=
  if (coef y =? 0)%Z then Throw DivisionByZero
  else
    let n := (Z.abs (coef x) * Zpos (pow10 (scale y + DP)))%Z in
    let d := (Z.abs (coef y) * Zpos (pow10 (scale x)))%Z in
    Ok (mkBig (Z.sgn (coef x) * Z.sgn (coef y) * ((2 * n + d) / (2 * d))) DP).

(** Rounding a rational to [dp] decimal places, half up: the reference
    that [Bdiv] is compared with. *)
Definition roundHalfUp (dp : nat) (q : Q) : Q :=
  (Z.sgn (Qnum q) * Qfloor (Qabs q * (Zpos (pow10 dp) # 1) + (1 # 2))) # pow10 dp.

(** A decimal string and the rational it stands for. *)
Definition denotes (s : string) (q : Q) : Prop :=
  exists b, parse s = Ok b /\ toQ b == q.

(** The methods, which convert their argument first. *)
Definition plus (x : Big) (y : BigSource) : result Big :=
  y' <- big y ;; Ok (Badd x y').

Definition minus (x : Big) (y : BigSource) : result Big :=
  y' <- big y ;; Ok (Bsub x y').

Definition mul (x : Big) (y : BigSource) : result Big :=
  y' <- big y ;; Ok (Bmul x y').

Definition div (x : Big) (y : BigSource) : result Big :=
  y' <- big y ;; Bdiv x y'.

(** ** Printing: [toFixed()] and [toString()] *)

(** Trailing zeros of the fraction are not kept. *)
Fixpoint strip (c : Z) (s : nat) : Z * nat :=
  match s with
  | O => (c, O)
  | S s' => if (c mod 10 =? 0)%Z then strip (c / 10) s' else (c, s)
  end.

Definition normalize (b : Big) : Big :=
  let '(c, s) := strip (coef b) (scale b) in mkBig c s.

Fixpoint zeros (n : nat) : string :=
  match n with
  | O => EmptyString
  | S n' => String "0" (zeros n')
  end.

Definition digitsOfN (n : N) : string :=
  NilEmpty.string_of_uint (N.to_uint n).

Fixpoint splitAt (n : nat) (s : string) : string * string :=
  match n, s with
  | S n', String c s' => let '(a, b) := splitAt n' s' in (String c a, b)
  | _, _ => (EmptyString, s)
  end.

(** [toFixed()] without argument: plain notation, all digits. *)
Definition toFixed (b : Big) : string :=
  let '(c, s) := strip (coef b) (scale b) in
  let d := digitsOfN (Z.to_N (Z.abs c)) in
  let p := (zeros (S s - String.length d) ++ d)%string in
  let '(i, f) := splitAt (String.length p - s) p in
  ((if (c <? 0)%Z then "-" else "") ++ i ++
   (match s with O => "" | _ => String "." f end))%string.

(** Dropping the zeros at the end of a digit string. *)
Fixpoint dropZeros (s : string) : string :=
  match s with
  | EmptyString => EmptyString
  | String c s' =>
    match dropZeros s' with
    | EmptyString => if Ascii.eqb c "0" then EmptyString else String c EmptyString
    | r => String c r
    end
  end.

(** [toString()]: as [toFixed()], but in exponential notation when the
    exponent of the leading digit is at least [Big.PE = 21] or at most
    [Big.NE = -7]. *)
Definition toString (b : Big) : string :=
  let '(c, s) := strip (coef b) (scale b) in
  let d := digitsOfN (Z.to_N (Z.abs c)) in
  let e := (Z.of_nat (String.length d) - 1 - Z.of_nat s)%Z in
  if (c =? 0)%Z then "0"
  else if ((e <=? -7) || (21 <=? e))%Z then
    let m := dropZeros d in
    ((if (c <? 0)%Z then "-" else "") ++
     substring 0 1 m ++
     (match substring 1 (String.length m - 1) m with
      | EmptyString => ""
      | r => String "." r
      end) ++
     "e" ++ (if (e <? 0)%Z then "-" else "+") ++
     digitsOfN (Z.to_N (Z.abs e)))%string
  else toFixed b.

End BigJs.

(** Modelled from the spec: [floor] and [min] of @anchor-protocol/big-math,
    a package of this repository whose source is not among its files
    here.  The spec does not describe the two functions one by one; they
    are written down as the package computes them, on big.js numbers. *)
Module BigMath.

Import BigJs.

(** The integer part of a rational: its fraction cut off, toward zero. *)
Definition Qtrunc (q : Q) : Z := Z.quot (Qnum q) (Zpos (Qden q)).

(** Modelled from the spec: [floor(number)] of @anchor-protocol/big-math.
    The spec says of the helpers only that they are arbitrary-precision
    decimal operations.  [floor] keeps the digits before the decimal
    point of [number] and drops the rest, so it rounds toward zero: the
    result is the floor of a number that is not negative and the ceiling
    of a negative one ([-0.5] gives [0], [-5800.5] gives [-5800]). *)
Definition floor (number : BigSource) : result Big :=
  x <- big number ;;
  Ok (mkBig (Z.quot (coef x) (Zpos (pow10 (scale x)))) 0).

(** Modelled from the spec: [min(a, b)] of the same package, the smaller
    of the two numbers, as a [Big]. *)
Definition min (a b : BigSource) : result Big :=
  x <- big a ;;
  y <- big b ;;
  Ok (if Bgt x y then y else x).

End BigMath.

(* ================================================================= *)
(** * pages/earn/queries/interestEarned.ts *)
(* ================================================================= *)

Module InterestEarned.

Import BigJs.

Record Earned := {
  Address : string;
  CurrentDeposit : string;            (* uUST<string> *)
  Height : Z;
  StableDenom : string;
  Timestamp : Z;
  TotalDeposit : string;              (* uUST<string> *)
  TotalWithdraw : string;             (* uUST<string> *)
  CurrentAnchorBalance : string       (* uUST<string> *)
}.

Record ExchangeRateRecord := {
  RateStableDenom : string;           (* StableDenom *)
  ExchangeRate : string               (* Ratio<string> *)
}.

(** [now] and [then] are optional fields; [then] is a word of Rocq's own
    and is spelled [then_] here. *)
Record RawData := {
  latestExchangeRate : list ExchangeRateRecord;
  fallback : list Earned;
  now : option (list Earned);
  then_ : option (list Earned)
}.

(** [a[0]]: the first element, or [undefined]. *)
Definition at0 {A : Type} (a : list A) : option A := nth_error a 0.

(** Reading a property of a value that may be [undefined]. *)
Definition prop {A B : Type} (o : option A) (f : A -> B) : result B :=
  match o with
  | Some a => Ok (f a)
  | None => Throw TypeError
  end.

(** The expression inside [try]:
    [floor(currentTokenValue.minus(referenceThen.CurrentDeposit)
       .plus(referenceNow.TotalWithdraw)
       .minus(referenceNow.TotalDeposit)).toFixed()]. *)
Definition floorOfInterest (currentTokenValue : Big)
    (referenceThen : option Earned) (referenceNow : Earned) : result string :=
  deposit <- prop referenceThen CurrentDeposit ;;
  x <- minus currentTokenValue deposit ;;
  y <- plus x (TotalWithdraw referenceNow) ;;
  z <- minus y (TotalDeposit referenceNow) ;;
  f <- BigMath.floor z ;;
  Ok (toFixed f).

(** [then && then.length >= 1 ? then[0] : fallback[0]] *)
Definition referenceThenOf (data : RawData) : option Earned :=
  match then_ data with
  | Some then' =>
      if (1 <=? List.length then')%nat then at0 then' else at0 (fallback data)
  | None => at0 (fallback data)
  end.

(** The record the deposit is read from, in the words of the spec:
    [then[0]] when [then] has an element, [fallback[0]] otherwise. *)
Definition isThenOrFallback (data : RawData) (r : Earned) : Prop :=
  (exists ts, then_ data = Some (r :: ts)) \/
  ((then_ data = None \/ then_ data = Some []) /\
   exists fs, fallback data = r :: fs).

(** [dataMap.interestEarned]; its first argument, the previous value, is
    not used by the source and is left out. *)
Definition interestEarned (data : RawData) : result string :=
  match now data with
  | None => Ok "0"
  | Some now' =>
    if (List.length now' =? 0)%nat then Ok "0"
    else
      let referenceNow := at0 now' in
      let referenceThen := referenceThenOf data in
      balance <- prop referenceNow CurrentAnchorBalance ;;
      b <- big (SrcString
                  (if (0 <? String.length balance)%nat then balance else "0")) ;;
      rate <- prop (at0 (latestExchangeRate data)) ExchangeRate ;;
      currentTokenValue <- mul b rate ;;
      match referenceNow with
      | Some referenceNow' =>
          try_catch
            (floorOfInterest currentTokenValue referenceThen referenceNow')
            (Ok "0")
      | None => Throw TypeError
      end
  end.

(** [mockupData.__data] *)
Definition mockupData : RawData :=
  {| latestExchangeRate := []; fallback := []; now := Some []; then_ := Some [] |}.

(** Records used as concrete inputs below. *)
Definition earned (deposit totalDeposit totalWithdraw balance : string) : Earned :=
  {| Address := "terra12hnhh5vtyg5juqnzm43970nh4fw42pt27nw9g9";
     CurrentDeposit := deposit;
     Height := 2000000;
     StableDenom := "uusd";
     Timestamp := 1614556800;
     TotalDeposit := totalDeposit;
     TotalWithdraw := totalWithdraw;
     CurrentAnchorBalance := balance |}.

Definition rateOf (r : string) : ExchangeRateRecord :=
  {| RateStableDenom := "uusd"; ExchangeRate := r |}.

(** A deposit of 1000 at the start of the period; since then 5000.5 put
    in and 200 taken out in total, 4000.123 aUST held now at a rate of
    1.5. *)
Definition data_then : RawData :=
  {| latestExchangeRate := [rateOf "1.5"];
     fallback := [];
     now := Some [earned "7000" "5000.5" "200" "4000.123"];
     then_ := Some [earned "1000" "1000" "0" "1000"] |}.

(** The same with no [then] record, so that [fallback] is used, and with
    an empty balance string. *)
Definition data_empty_balance : RawData :=
  {| latestExchangeRate := [rateOf "1.5"];
     fallback := [earned "1000" "1000" "0" "1000"];
     now := Some [earned "7000" "5000.5" "200" ""];
     then_ := None |}.

(** The same with an exchange rate that is not a number. *)
Definition data_empty_balance_bad_rate : RawData :=
  {| latestExchangeRate := [rateOf "n/a"];
     fallback := [earned "1000" "1000" "0" "1000"];
     now := Some [earned "7000" "5000.5" "200" ""];
     then_ := None |}.

(** A loss: 2000.5 deposited at the start of the period, nothing put in
    or taken out since, and 1000 aUST held now at a rate of 1.5. *)
Definition data_loss : RawData :=
  {| latestExchangeRate := [rateOf "1.5"];
     fallback := [];
     now := Some [earned "1500" "0" "0" "1000"];
     then_ := Some [earned "2000.5" "0" "0" "1300"] |}.

(** Neither a [then] nor a [fallback] record. *)
Definition data_no_reference : RawData :=
  {| latestExchangeRate := [rateOf "1.5"];
     fallback := [];
     now := Some [earned "7000" "5000.5" "200" "4000.123"];
     then_ := Some [] |}.

End InterestEarned.

(* ================================================================= *)
(** * sellFromSimulation *)
(* ================================================================= *)

Module SellFromSimulation.

Import BigJs.

(** [terraswap.SimulationResponse] *)
Record SimulationResponse := {
  return_amount : string;
  spread_amount : string;
  commission_amount : string
}.

(** [Data] of [queries/tax] *)
Record TaxData := {
  taxRate : string;                   (* Rate *)
  maxTaxUUSD : string                 (* uUST *)
}.

(** [TradeSimulation]: the fields of the simulation, spread into the
    record, and the derived ones. *)
Record TradeSimulation := {
  sim_return_amount : string;
  sim_spread_amount : string;
  sim_commission_amount : string;
  minimumReceived : string;
  swapFee : string;
  beliefPrice : string;
  maxSpread : string;
  txFee : string;
  fromAmount : string
}.

(** The local [tax] of the source:
    [min(big(amount).minus(big(amount).div(big(1).plus(taxRate))), maxTaxUUSD)]. *)
Definition taxOf (amount : string) (t : TaxData) : result Big :=
  a <- big amount ;;
  a' <- big amount ;;
  one <- big "1" ;;
  d <- plus one (taxRate t) ;;
  q <- div a' d ;;
  m <- minus a q ;;
  BigMath.min m (maxTaxUUSD t).

Definition sellFromSimulation (simulation : SimulationResponse)
    (amount : string) (t : TaxData) (fixedGas : BigSource)
  : result TradeSimulation :=
  a <- big amount ;;
  beliefPrice' <- div a (return_amount simulation) ;;
  let maxSpread' := "0.1" in
  tax <- taxOf amount t ;;
  r <- big (return_amount simulation) ;;
  expectedAmount <- minus r tax ;;
  one <- big "1" ;;
  rate <- minus one maxSpread' ;;
  received <- mul expectedAmount rate ;;
  let minimumReceived' := toFixed received in
  c <- big (commission_amount simulation) ;;
  fee <- plus c (spread_amount simulation) ;;
  let swapFee' := toFixed fee in
  txFee' <- plus tax fixedGas ;;
  a'' <- big amount ;;
  from <- mul a'' beliefPrice' ;;
  Ok {| sim_return_amount := return_amount simulation;
        sim_spread_amount := spread_amount simulation;
        sim_commission_amount := commission_amount simulation;
        minimumReceived := minimumReceived';
        swapFee := swapFee';
        beliefPrice := toFixed beliefPrice';
        maxSpread := maxSpread';
        txFee := toFixed txFee';
        fromAmount := toString from |}.

(** Inputs used below: one million uusd sold for a simulated return of
    three million, and the smallest case of a quotient that does not end. *)
Definition sim_3m : SimulationResponse :=
  {| return_amount := "3000000"; spread_amount := "12";
     commission_amount := "9000" |}.

Definition tax_05 : TaxData :=
  {| taxRate := "0.005"; maxTaxUUSD := "3500000" |}.

Definition sim_3 : SimulationResponse :=
  {| return_amount := "3"; spread_amount := "0"; commission_amount := "0" |}.

Definition tax_0 : TaxData := {| taxRate := "0"; maxTaxUUSD := "0" |}.

End SellFromSimulation.

(* ================================================================= *)
(** * getDates and mapVariables *)
(* ================================================================= *)

Module Dates.

Open Scope Z_scope.

Inductive Period := total | year | month | week | day.

(** The [Duration] of date-fns. *)
Record Duration := {
  years : Z;
  months : Z;
  weeks : Z;
  days : Z;
  hours : Z;
  minutes : Z;
  seconds : Z
}.

Definition noDuration : Duration :=
  {| years := 0; months := 0; weeks := 0; days := 0;
     hours := 0; minutes := 0; seconds := 0 |}.

(** [{ years: 1 }], [{ months: 1 }], [{ weeks: 1 }], [{ days: 1 }] *)
Definition oneYear : Duration :=
  {| years := 1; months := 0; weeks := 0; days := 0;
     hours := 0; minutes := 0; seconds := 0 |}.
Definition oneMonth : Duration :=
  {| years := 0; months := 1; weeks := 0; days := 0;
     hours := 0; minutes := 0; seconds := 0 |}.
Definition oneWeek : Duration :=
  {| years := 0; months := 0; weeks := 1; days := 0;
     hours := 0; minutes := 0; seconds := 0 |}.
Definition oneDay : Duration :=
  {| years := 0; months := 0; weeks := 0; days := 1;
     hours := 0; minutes := 0; seconds := 0 |}.

(** [{ now: JSDateTime; then: JSDateTime }], in milliseconds. *)
Record DatePair := { now : Z; then_ : Z }.

(** [Variables] and [RawVariables] *)
Record Variables := {
  walletAddress : string;
  v_now : Z;                          (* now: JSDateTime *)
  v_then : Z                          (* then: JSDateTime *)
}.

Record RawVariables := {
  r_walletAddress : string;
  r_now : Z;                          (* now: DateTime *)
  r_then : Z;                         (* then: DateTime *)
  stable_denom : string
}.

Section GetDates.

(** [sub(date, duration).getTime()] of date-fns, a library outside the
    repository: the time stamp [date] moved back by [duration]. *)
Variable sub : Z -> Duration -> Z.

(** [getDates(period)]; [clock] is what [Date.now()] returns. *)
Definition getDates (clock : Z) (period : Period) : DatePair :=
  let now := clock in
  {| now := now;
     then_ :=
       match period with
       | total => 0
       | year => sub now oneYear
       | month => sub now oneMonth
       | week => sub now oneWeek
       | day => sub now oneDay
       end |}.

End GetDates.

(** [mapVariables]; [Math.floor(x / 1000)] on an integer time stamp is the
    quotient rounded down. *)
Definition mapVariables (v : Variables) : RawVariables :=
  {| r_walletAddress := walletAddress v;
     r_now := v_now v / 1000;
     r_then := v_then v / 1000;
     stable_denom := "uusd" |}.

(** The [variables] of [useInterestEarned]: [getDates], then
    [mapVariables]. *)
Definition variablesOf (sub : Z -> Duration -> Z) (clock : Z)
    (period : Period) (wallet : string) : RawVariables :=
  let d := getDates sub clock period in
  mapVariables {| walletAddress := wallet; v_now := now d; v_then := then_ d |}.

(** ** A model of date-fns' [sub]

    date-fns is a library outside the repository.  Its [sub] works on the
    calendar fields of the local time.  [sub_utc] below is [sub] where the
    local time is UTC, and for no other zone; [sub_zone offset] is [sub]
    in a time zone whose local time is UTC plus a fixed [offset] of
    milliseconds.  Zones whose offset changes during the year are not
    modelled.

    Time stamps are milliseconds since 1970-01-01T00:00 UTC; the calendar
    is the proleptic Gregorian one. *)

Definition msPerDay : Z := 86400000.

Definition isLeap (y : Z) : bool :=
  (y mod 4 =? 0) && (negb (y mod 100 =? 0) || (y mod 400 =? 0)).

(** Days in month [m] (1 to 12) of year [y]. *)
Definition daysInMonth (y m : Z) : Z :=
  if m =? 2 then (if isLeap y then 29 else 28)
  else if (m =? 4) || (m =? 6) || (m =? 9) || (m =? 11) then 30
  else 31.

(** Day number (0 is 1970-01-01) of a civil date, and back; years start
    in March inside the computation, so that the leap day comes last. *)
Definition daysFromCivil (y m d : Z) : Z :=
  let y0 := if m <=? 2 then y - 1 else y in
  let era := y0 / 400 in
  let yoe := y0 - era * 400 in
  let doy := (153 * (if 2 <? m then m - 3 else m + 9) + 2) / 5 + d - 1 in
  let doe := yoe * 365 + yoe / 4 - yoe / 100 + doy in
  era * 146097 + doe - 719468.

Definition civilFromDays (z : Z) : Z * Z * Z :=
  let z' := z + 719468 in
  let era := z' / 146097 in
  let doe := z' - era * 146097 in
  let yoe := (doe - doe / 1460 + doe / 36524 - doe / 146096) / 365 in
  let doy := doe - (365 * yoe + yoe / 4 - yoe / 100) in
  let mp := (5 * doy + 2) / 153 in
  let d := doy - (153 * mp + 2) / 5 + 1 in
  let m := if mp <? 10 then mp + 3 else mp - 9 in
  let y := yoe + era * 400 in
  (if m <=? 2 then y + 1 else y, m, d).

(** The first day of the month with index [j], where the index counts
    months from January of year 0. *)
Definition firstOfMonth (j : Z) : Z := daysFromCivil (j / 12) (j mod 12 + 1) 1.

(** [subMonths]: nothing for no months; otherwise the same day of the
    month [n] months earlier, or the last day of that month when it is
    shorter; the time of day is kept. *)
Definition subMonths (t n : Z) : Z :=
  if n =? 0 then t
  else
    let '(y, m, d) := civilFromDays (t / msPerDay) in
    let k := 12 * y + (m - 1) - n in
    let y' := k / 12 in
    let m' := k mod 12 + 1 in
    let d' := Z.min d (daysInMonth y' m') in
    daysFromCivil y' m' d' * msPerDay + t mod msPerDay.

Definition subDays (t n : Z) : Z := t - n * msPerDay.

(** [sub] in UTC: months and years first, then weeks and days, then the
    rest. *)
Definition sub_utc (t : Z) (d : Duration) : Z :=
  let withoutMonths := subMonths t (months d + 12 * years d) in
  let withoutDays := subDays withoutMonths (days d + 7 * weeks d) in
  withoutDays - (seconds d + 60 * (minutes d + 60 * hours d)) * 1000.

(** [sub] where the local time is [offset] milliseconds ahead of UTC: the
    same on the local time stamp. *)
Definition sub_zone (offset : Z) (t : Z) (d : Duration) : Z :=
  sub_utc (t + offset) d - offset.

(** Nine hours ahead of UTC, as in Seoul. *)
Definition utcPlus9 : Z := 32400000.

End Dates.

(* ================================================================= *)
(** * Measures of a polling trace *)
(* ================================================================= *)

Module TraceMeasures.

Import TxPolling.

(** The number of [sleep] calls of a trace, and the time asked of them. *)
Definition isSleep (e : Event) : bool :=
  match e with sleep _ => true | _ => false end.

Definition sleeps (tr : list Event) : nat :=
  List.length (filter isSleep tr).

Fixpoint sleepTime (tr : list Event) : Z :=
  match tr with
  | [] => 0%Z
  | sleep ms :: tr' => (ms + sleepTime tr')%Z
  | _ :: tr' => sleepTime tr'
  end.

(** The outcome is an answer of the indexer, as opposed to an abort or a
    loop still running. *)
Definition isAnswer (o : option Outcome) : bool :=
  match o with
  | Some (Return _ _) => true
  | Some (Throw (Error _)) => true
  | _ => false
  end.

(** The indexer fails the transaction at the second query; the signal is
    never aborted. *)
Definition w_fails_second : World :=
  {| aborted := fun _ => false;
     indexer := fun i _ => if (i <? 1)%nat then [] else [info_ok; info_bad; info_ok] |}.

End TraceMeasures.

(* ================================================================= *)
(** * More inputs for [sellFromSimulation] *)
(* ================================================================= *)

Module SellSamples.

Import BigJs SellFromSimulation.

(** A simulated return of zero, with everything after it unreadable. *)
Definition sim_zero : SimulationResponse :=
  {| return_amount := "0.00"; spread_amount := "n/a";
     commission_amount := "" |}.

Definition tax_unreadable : TaxData := {| taxRate := "?"; maxTaxUUSD := "" |}.

(** A tax rate of minus one. *)
Definition tax_minus_one : TaxData :=
  {| taxRate := "-1"; maxTaxUUSD := "3500000" |}.

End SellSamples.

(* ================================================================= *)
(** * App.tsx: the routes *)
(* ================================================================= *)

Module App.

(** The page components. *)
Inductive Page := Earn | Borrow | BAsset | Airdrop | Governance.

(** The elements inside [<Switch>]. *)
Inductive Element :=
| Route (path : string) (component : Page)
| Redirect (to : string).

(** What the switch ends up showing. *)
Inductive View :=
| Shows (component : Page)
| Redirecting (to : string)       (* a redirect that is still to be followed *)
| Nothing.

Section Routes.

(** [govPathname] of [pages/gov/env], a constant that is not under src/. *)
Variable govPathname : string.

(** [matchPath] of react-router: whether a location matches the [path] of
    a route. *)
Variable matchPath : string -> string -> bool.

(** The children of [<Switch>] in [App]; [{!isDemo && <Route ... />}] is
    the element, or [false], which is no element. *)
Definition children (isDemo : bool) : list (option Element) :=
  [ Some (Route "/earn" Earn);
    Some (Route "/borrow" Borrow);
    Some (Route "/bond" BAsset);
    Some (Route "/airdrop" Airdrop);
    (if negb isDemo then Some (Route ("/" ++ govPathname) Governance) else None);
    Some (Redirect "/earn") ].

(** [<Switch>] picks the first child that is an element and matches; a
    [<Redirect>] without [from] matches every location. *)
Definition matches (location : string) (child : option Element) : bool :=
  match child with
  | Some (Route path _) => matchPath location path
  | Some (Redirect _) => true
  | None => false
  end.

Definition Switch (cs : list (option Element)) (location : string)
  : option Element :=
  match find (matches location) cs with
  | Some child => child
  | None => None
  end.

(** Rendering [App] at a location, following at most [hops] redirects. *)
Fixpoint show (isDemo : bool) (hops : nat) (location : string) : View :=
  match Switch (children isDemo) location with
  | Some (Route _ component) => Shows component
  | Some (Redirect to) =>
      match hops with
      | O => Redirecting to
      | S hops' => show isDemo hops' to
      end
  | None => Nothing
  end.

End Routes.

(** A matcher for concrete inputs: the location starts with the path. *)
Definition startsWith (location path : string) : bool := prefix path location.

End App.

(* ================================================================= *)
(** * The value of a digit sequence *)
(* ================================================================= *)

Module Digits.

(** The number that the digits [d] stand for when they follow digits that
    stood for [acc]. *)
Fixpoint hvalU (d : Decimal.uint) (acc : N) : N :=
  match d with
  | Decimal.Nil => acc
  | Decimal.D0 l => hvalU l (10 * acc)
  | Decimal.D1 l => hvalU l (1 + 10 * acc)
  | Decimal.D2 l => hvalU l (2 + 10 * acc)
  | Decimal.D3 l => hvalU l (3 + 10 * acc)
  | Decimal.D4 l => hvalU l (4 + 10 * acc)
  | Decimal.D5 l => hvalU l (5 + 10 * acc)
  | Decimal.D6 l => hvalU l (6 + 10 * acc)
  | Decimal.D7 l => hvalU l (7 + 10 * acc)
  | Decimal.D8 l => hvalU l (8 + 10 * acc)
  | Decimal.D9 l => hvalU l (9 + 10 * acc)
  end%N.

End Digits.

(* ================================================================= *)
(** * PollDetail: the quorum label *)
(* ================================================================= *)

Module PollDetail.

Import BigJs.

(** The field of [govConfig] that the label reads; a rate, as a string. *)
Record GovConfig := { quorum : string }.

(** The expression of the label,
    [floor(big(govConfig?.quorum ?? 0).mul(100)).toString()]: the number
    in front of the percent sign.  It is written for a [govConfig] that
    may be undefined; the component evaluates it only where [quorumLabel]
    below says so. *)
Definition quorumPercent (govConfig : option GovConfig) : result string :=
  x <- big (SrcString (match govConfig with
                       | Some g => quorum g
                       | None => "0"
                       end)) ;;
  y <- mul x "100" ;;
  f <- BigMath.floor y ;;
  Ok (toString f).

Section Component.

Variables Poll Detail : Type.

(** Modelled from the spec: [extractPollDetail] of pages/gov/logics, whose
    source is not among the files; the spec does not describe it, and it
    is taken to return an object, the poll with its vote tally. *)
Variable extractPollDetail : Poll -> GovConfig -> Z -> Detail.

(** [poll && govConfig && lastSyncedHeight
       ? extractPollDetail(poll, govConfig, lastSyncedHeight) : undefined];
    a height of 0 is falsy, as an undefined one is. *)
Definition pollDetailOf (poll : option Poll) (govConfig : option GovConfig)
    (lastSyncedHeight : option Z) : option Detail :=
  match poll, govConfig, lastSyncedHeight with
  | Some p, Some g, Some h =>
      if (h =? 0)%Z then None else Some (extractPollDetail p g h)
  | _, _, _ => None
  end.

(** The quorum label of [PollDetailBase]: nothing when the component
    returns [null], which it does when [pollDetail] is undefined, and the
    value of the label's expression in the layout otherwise. *)
Definition quorumLabel (poll : option Poll) (govConfig : option GovConfig)
    (lastSyncedHeight : option Z) : option (result string) :=
  match pollDetailOf poll govConfig lastSyncedHeight with
  | None => None
  | Some _ => Some (quorumPercent govConfig)
  end.

End Component.

End PollDetail.

(* ================================================================= *)
(** * The transforms in the state around them *)
(* ================================================================= *)

(** The transforms take no state as an argument, but the methods of big.js
    that they call read the static properties of the [Big] constructor,
    which any code of the page can assign.  Here the two transforms are
    written once more as computations in a world that holds these
    settings, so that what they read and what they leave behind can be
    stated. *)
Module Ambient.

Import BigJs InterestEarned SellFromSimulation.

(** [Big.RM]: 0, 1, 2 and 3. *)
Inductive RoundingMode :=
| ROUND_DOWN          (* towards zero *)
| ROUND_HALF_UP       (* to the nearest; a tie away from zero *)
| ROUND_HALF_EVEN     (* to the nearest; a tie to the even neighbour *)
| ROUND_UP.           (* away from zero *)

(** The settings that the methods read: [Big.DP] and [Big.RM] are read by
    [div], [Big.NE] and [Big.PE] by [toString]. *)
Record Settings := {
  bigDP : nat;
  bigRM : RoundingMode;
  bigNE : Z;
  bigPE : Z
}.

(** The settings big.js starts with. *)
Definition defaults : Settings :=
  {| bigDP := 20; bigRM := ROUND_HALF_UP; bigNE := -7; bigPE := 21 |}.

(** The same with two decimal places for quotients. *)
Definition twoPlaces : Settings :=
  {| bigDP := 2; bigRM := ROUND_HALF_UP; bigNE := -7; bigPE := 21 |}.

(** The defaults with quotients rounded towards zero. *)
Definition roundingDown : Settings :=
  {| bigDP := 20; bigRM := ROUND_DOWN; bigNE := -7; bigPE := 21 |}.

(** [n / d], for [0 <= n] and [0 < d], as a whole number in the rounding
    mode. *)
Definition roundQuotient (rm : RoundingMode) (n d : Z) : Z :=
  match rm with
  | ROUND_DOWN => n / d
  | ROUND_HALF_UP => (2 * n + d) / (2 * d)
  | ROUND_HALF_EVEN =>
      let q := n / d in
      let r := n mod d in
      if 2 * r <? d then q
      else if d <? 2 * r then q + 1
      else if Z.even q then q else q + 1
  | ROUND_UP => if n mod d =? 0 then n / d else n / d + 1
  end%Z.

(** [x.div(y)] under the settings [s]: the quotient at [Big.DP] decimal
    places in the mode [Big.RM]. *)
Definition BdivWith (s : Settings) (x y : Big) : result Big :=
  if (coef y =? 0)%Z then Throw DivisionByZero
  else
    let n := (Z.abs (coef x) * Zpos (pow10 (scale y + bigDP s)))%Z in
    let d := (Z.abs (coef y) * Zpos (pow10 (scale x)))%Z in
    Ok (mkBig (Z.sgn (coef x) * Z.sgn (coef y) * roundQuotient (bigRM s) n d)
              (bigDP s)).

(** [x.toString()] under the settings [s]: exponential notation when the
    exponent of the leading digit is at least [Big.PE] or at most
    [Big.NE]. *)
Definition toStringWith (s : Settings) (b : Big) : string :=
  let '(c, sc) := strip (coef b) (scale b) in
  let d := digitsOfN (Z.to_N (Z.abs c)) in
  let e := (Z.of_nat (String.length d) - 1 - Z.of_nat sc)%Z in
  if (c =? 0)%Z then "0"
  else if ((e <=? bigNE s) || (bigPE s <=? e))%Z then
    let m := dropZeros d in
    ((if (c <? 0)%Z then "-" else "") ++
     substring 0 1 m ++
     (match substring 1 (String.length m - 1) m with
      | EmptyString => ""
      | r => String "." r
      end) ++
     "e" ++ (if (e <? 0)%Z then "-" else "+") ++
     digitsOfN (Z.to_N (Z.abs e)))%string
  else BigJs.toFixed b.

Section World.

(** The state outside the arguments of a call, whatever it holds, and the
    settings of big.js in it. *)
Variable World : Type.
Variable settings : World -> Settings.

(** A call in a world: it returns or throws, and leaves a world behind. *)
Definition Run (A : Type) : Type := World -> result A * World.

Definition ret {A : Type} (a : A) : Run A := fun w => (Ok a, w).

Definition raise {A : Type} (e : JsError) : Run A := fun w => (Throw e, w).

Definition bindR {A B : Type} (m : Run A) (k : A -> Run B) : Run B :=
  fun w =>
    match m w with
    | (Ok a, w') => k a w'
    | (Throw e, w') => (Throw e, w')
    end.

Notation "x <~ m ;; k" := (bindR m (fun x => k))
  (at level 61, m at next level, right associativity).

(** [try { body } catch { handler }] *)
Definition tryCatch {A : Type} (body handler : Run A) : Run A :=
  fun w =>
    match body w with
    | (Ok a, w') => (Ok a, w')
    | (Throw _, w') => handler w'
    end.

(** A call that neither reads nor writes the world. *)
Definition closed {A : Type} (r : result A) : Run A := fun w => (r, w).

(** The operations of big.js and of @anchor-protocol/big-math.  [div] and
    [toString] read the settings; the constructor, [plus], [minus],
    [mul], [toFixed()], [floor] and [min] do not; none assigns them. *)
Definition big (v : BigSource) : Run Big := closed (BigJs.big v).

Definition plus (x : Big) (y : BigSource) : Run Big := closed (BigJs.plus x y).

Definition minus (x : Big) (y : BigSource) : Run Big := closed (BigJs.minus x y).

Definition mul (x : Big) (y : BigSource) : Run Big := closed (BigJs.mul x y).

Definition div (x : Big) (y : BigSource) : Run Big :=
  fun w => (y' <- BigJs.big y ;; BdivWith (settings w) x y', w).

Definition toFixed (b : Big) : Run string := closed (Ok (BigJs.toFixed b)).

Definition toString (b : Big) : Run string :=
  fun w => (Ok (toStringWith (settings w) b), w).

Definition floor (number : BigSource) : Run Big := closed (BigMath.floor number).

Definition min (a b : BigSource) : Run Big := closed (BigMath.min a b).

(** Reading a property of a value that may be [undefined]. *)
Definition prop {A B : Type} (o : option A) (f : A -> B) : Run B :=
  closed (InterestEarned.prop o f).

(** ** [dataMap.interestEarned] *)

Definition floorOfInterest (currentTokenValue : Big)
    (referenceThen : option Earned) (referenceNow : Earned) : Run string :=
  deposit <~ prop referenceThen CurrentDeposit ;;
  x <~ minus currentTokenValue deposit ;;
  y <~ plus x (TotalWithdraw referenceNow) ;;
  z <~ minus y (TotalDeposit referenceNow) ;;
  f <~ floor z ;;
  toFixed f.

Definition interestEarned (data : RawData) : Run string :=
  match now data with
  | None => ret "0"
  | Some now' =>
    if (List.length now' =? 0)%nat then ret "0"
    else
      let referenceNow := at0 now' in
      let referenceThen := referenceThenOf data in
      balance <~ prop referenceNow CurrentAnchorBalance ;;
      b <~ big (SrcString
                  (if (0 <? String.length balance)%nat then balance else "0")) ;;
      rate <~ prop (at0 (latestExchangeRate data)) ExchangeRate ;;
      currentTokenValue <~ mul b rate ;;
      match referenceNow with
      | Some referenceNow' =>
          tryCatch
            (floorOfInterest currentTokenValue referenceThen referenceNow')
            (ret "0")
      | None => raise TypeError
      end
  end.

(** ** [sellFromSimulation] *)

Definition taxOf (amount : string) (t : TaxData) : Run Big :=
  a <~ big amount ;;
  a' <~ big amount ;;
  one <~ big "1" ;;
  d <~ plus one (taxRate t) ;;
  q <~ div a' d ;;
  m <~ minus a q ;;
  min m (maxTaxUUSD t).

Definition sellFromSimulation (simulation : SimulationResponse)
    (amount : string) (t : TaxData) (fixedGas : BigSource)
  : Run TradeSimulation :=
  a <~ big amount ;;
  beliefPrice' <~ div a (return_amount simulation) ;;
  let maxSpread' := "0.1" in
  tax <~ taxOf amount t ;;
  r <~ big (return_amount simulation) ;;
  expectedAmount <~ minus r tax ;;
  one <~ big "1" ;;
  rate <~ minus one maxSpread' ;;
  received <~ mul expectedAmount rate ;;
  minimumReceived' <~ toFixed received ;;
  c <~ big (commission_amount simulation) ;;
  fee <~ plus c (spread_amount simulation) ;;
  swapFee' <~ toFixed fee ;;
  beliefPrice'' <~ toFixed beliefPrice' ;;
  txFee' <~ plus tax fixedGas ;;
  txFee'' <~ toFixed txFee' ;;
  a'' <~ big amount ;;
  from <~ mul a'' beliefPrice' ;;
  fromAmount' <~ toString from ;;
  ret {| sim_return_amount := return_amount simulation;
         sim_spread_amount := spread_amount simulation;
         sim_commission_amount := commission_amount simulation;
         minimumReceived := minimumReceived';
         swapFee := swapFee';
         beliefPrice := beliefPrice'';
         maxSpread := maxSpread';
         txFee := txFee'';
         fromAmount := fromAmount' |}.

End World.

End Ambient.
(* ================================================================= *)
(** * Properties of the polling loop *)
(* ================================================================= *)

Section PollingFacts.

Import TxPolling.

Variable w : World.
Variable txResult : TxResult.

Let hash := txhash (result txResult).

(** Unfolding one iteration. *)
Lemma poll_step fuel i :
  poll w txResult (S fuel) i =
    if aborted w i then ([], Some (Throw stopSignal))
    else
      let txInfos := indexer w i hash in
      if (0 <? List.length txInfos)%nat then
        match find (fun t => negb (Success t)) txInfos with
        | Some fail => ([queryTxInfo hash], Some (Throw (Error (RawLog fail))))
        | None => ([queryTxInfo hash], Some (Return txResult txInfos))
        end
      else
        let '(tr, out) := poll w txResult fuel (S i) in
        (queryTxInfo hash :: sleep 500 :: tr, out).
Proof. reflexivity. Qed.

Lemma poll_aborted fuel i :
  aborted w i = true ->
  poll w txResult (S fuel) i = ([], Some (Throw stopSignal)).
Proof. intros Ha. rewrite poll_step, Ha. reflexivity. Qed.

Lemma poll_empty fuel i :
  aborted w i = false -> indexer w i hash = [] ->
  poll w txResult (S fuel) i =
    (queryTxInfo hash :: sleep 500 :: fst (poll w txResult fuel (S i)),
     snd (poll w txResult fuel (S i))).
Proof.
  intros Ha He. rewrite poll_step, Ha. cbv zeta. rewrite He. simpl.
  destruct (poll w txResult fuel (S i)); reflexivity.
Qed.

Lemma poll_found fuel i :
  aborted w i = false -> indexer w i hash <> [] ->
  poll w txResult (S fuel) i =
    ([queryTxInfo hash], Some (verdict txResult (indexer w i hash))).
Proof.
  intros Ha Hne. rewrite poll_step, Ha. cbv zeta. unfold verdict.
  destruct (indexer w i hash) as [|t ts] eqn:E; [congruence|].
  cbn [List.length Nat.ltb Nat.leb].
  destruct (find _ (t :: ts)); reflexivity.
Qed.

(** Skipping [k] rounds that found nothing. *)
Lemma poll_skip k : forall fuel i,
  (forall j, (j < k)%nat ->
     aborted w (i + j) = false /\ indexer w (i + j) hash = []) ->
  poll w txResult (k + fuel) i =
    (emptyRounds hash k ++ fst (poll w txResult fuel (i + k)),
     snd (poll w txResult fuel (i + k))).
Proof.
  induction k as [|k IH]; intros fuel i H.
  - rewrite Nat.add_0_r. simpl. destruct (poll w txResult fuel i); reflexivity.
  - destruct (H 0%nat) as [Ha He]; [lia|]. rewrite Nat.add_0_r in Ha, He.
    change (S k + fuel)%nat with (S (k + fuel)).
    rewrite (poll_empty _ _ Ha He), IH.
    + replace (S i + k)%nat with (i + S k)%nat by lia. reflexivity.
    + intros j Hj. replace (S i + j)%nat with (i + S j)%nat by lia.
      apply H. lia.
Qed.

(** The first non-empty answer decides the outcome, if nobody aborted. *)
Lemma poll_first_answer k fuel :
  reaches w hash k -> aborted w k = false -> indexer w k hash <> [] ->
  (k < fuel)%nat ->
  poll w txResult fuel 0 =
    (emptyRounds hash k ++ [queryTxInfo hash],
     Some (verdict txResult (indexer w k hash))).
Proof.
  intros Hr Ha Hne Hlt.
  replace fuel with (k + S (fuel - S k))%nat by lia.
  rewrite poll_skip by (intros j Hj; apply Hr; exact Hj).
  change (0 + k)%nat with k.
  rewrite (poll_found _ _ Ha Hne). reflexivity.
Qed.

Lemma poll_first_abort k fuel :
  reaches w hash k -> aborted w k = true -> (k < fuel)%nat ->
  poll w txResult fuel 0 = (emptyRounds hash k, Some (Throw stopSignal)).
Proof.
  intros Hr Ha Hlt.
  replace fuel with (k + S (fuel - S k))%nat by lia.
  rewrite poll_skip by (intros j Hj; apply Hr; exact Hj).
  change (0 + k)%nat with k.
  rewrite (poll_aborted _ _ Ha). simpl. rewrite app_nil_r. reflexivity.
Qed.

(** While nothing happens the loop keeps running. *)
Lemma poll_running fuel :
  reaches w hash fuel ->
  poll w txResult fuel 0 = (emptyRounds hash fuel, None).
Proof.
  intros Hr.
  replace fuel with (fuel + 0)%nat at 1 by lia.
  rewrite poll_skip by (intros j Hj; apply Hr; exact Hj).
  simpl. rewrite app_nil_r. reflexivity.
Qed.

(** A finished run ended at some iteration below the fuel. *)
Lemma poll_finished : forall fuel i o,
  snd (poll w txResult fuel i) = Some o ->
  exists k, (k < fuel)%nat /\
    (aborted w (i + k) = true \/ indexer w (i + k) hash <> []).
Proof.
  induction fuel as [|fuel IH]; intros i o H; [discriminate|].
  destruct (aborted w i) eqn:Ha.
  - exists 0%nat. rewrite Nat.add_0_r. split; [lia|now left].
  - destruct (indexer w i hash) as [|t ts] eqn:He.
    + rewrite (poll_empty _ _ Ha He) in H. simpl in H.
      destruct (IH _ _ H) as [k [Hk Hor]].
      exists (S k). replace (i + S k)%nat with (S i + k)%nat by lia.
      split; [lia|exact Hor].
    + exists 0%nat. rewrite Nat.add_0_r. split; [lia|right; congruence].
Qed.

(** Every trace of the loop is a run of empty rounds, possibly closed by
    one last query. *)
Lemma poll_trace_shape : forall fuel i,
  PollTrace hash (fst (poll w txResult fuel i)).
Proof.
  induction fuel as [|fuel IH]; intros i; [constructor|].
  rewrite poll_step.
  destruct (aborted w i); [constructor|]. cbv zeta.
  destruct (0 <? List.length (indexer w i hash))%nat.
  - fold hash. destruct (find _ _); constructor.
  - specialize (IH (S i)). destruct (poll w txResult fuel (S i)). simpl in *.
    now constructor.
Qed.

(** More fuel does not change a run that has ended: the fuel only bounds
    how far the loop is unfolded. *)
Lemma poll_fuel_mono : forall fuel i o,
  snd (poll w txResult fuel i) = Some o ->
  forall fuel', (fuel <= fuel')%nat ->
    poll w txResult fuel' i = poll w txResult fuel i.
Proof.
  induction fuel as [|fuel IH]; intros i o H fuel' Hle; [discriminate|].
  destruct fuel' as [|fuel']; [lia|].
  rewrite !poll_step. rewrite poll_step in H.
  destruct (aborted w i); [reflexivity|]. cbv zeta in *.
  destruct (0 <? List.length (indexer w i hash))%nat; [reflexivity|].
  destruct (poll w txResult fuel (S i)) as [tr out] eqn:E.
  cbn [snd] in H. subst out.
  rewrite (IH (S i) o) by (rewrite ?E; auto; lia).
  rewrite E. reflexivity.
Qed.

(** The outcome of the loop is never the posting error. *)
Lemma poll_never_TxError : forall fuel i m,
  snd (poll w txResult fuel i) <> Some (Throw (TxError m)).
Proof.
  induction fuel as [|fuel IH]; intros i m; [discriminate|].
  rewrite poll_step.
  destruct (aborted w i); [discriminate|]. cbv zeta.
  destruct (0 <? List.length (indexer w i hash))%nat.
  - fold hash. destruct (find _ _); discriminate.
  - specialize (IH (S i) m). destruct (poll w txResult fuel (S i)). exact IH.
Qed.

(** Below an iteration where something happens there is a first one. *)
Lemma first_event k :
  reaches w hash k \/
  exists k0, (k0 < k)%nat /\ reaches w hash k0 /\
    (aborted w k0 = true \/ indexer w k0 hash <> []).
Proof.
  induction k as [|k IH].
  - left. intros j Hj. lia.
  - destruct IH as [Hr | [k0 [Hlt [Hr Hev]]]].
    + destruct (aborted w k) eqn:Ha.
      * right. exists k. split; [lia|]. split; [exact Hr|now left].
      * destruct (indexer w k hash) as [|t ts] eqn:He.
        -- left. intros j Hj.
           destruct (Nat.eq_dec j k) as [->|Hne]; [now split|].
           apply Hr. lia.
        -- right. exists k. split; [lia|]. split; [exact Hr|].
           right. rewrite He. discriminate.
    + right. exists k0. split; [lia|]. split; assumption.
Qed.

End PollingFacts.

Section VerdictFacts.

Import TxPolling.

(** [find] returns the first record that failed. *)
Lemma find_first_failing (txInfos : list TxInfo) :
  match find (fun t => negb (Success t)) txInfos with
  | Some fail =>
      exists pre post, txInfos = pre ++ fail :: post /\
        forallb Success pre = true /\ Success fail = false
  | None => forallb Success txInfos = true
  end.
Proof.
  induction txInfos as [|t ts IH]; [reflexivity|].
  simpl. destruct (Success t) eqn:Hs; simpl.
  - destruct (find _ ts) as [fail|].
    + destruct IH as [pre [post [E [Hp Hf]]]].
      exists (t :: pre), post. rewrite E. simpl. rewrite Hs, Hp. auto.
    + exact IH.
  - exists [], ts. auto.
Qed.

Lemma verdict_all_ok txResult txInfos :
  forallb Success txInfos = true ->
  verdict txResult txInfos = Return txResult txInfos.
Proof.
  intros H. unfold verdict.
  pose proof (find_first_failing txInfos) as F.
  destruct (find _ txInfos) as [fail|]; [|reflexivity].
  destruct F as [pre [post [E [_ Hf]]]]. subst txInfos.
  rewrite forallb_app in H. simpl in H. rewrite Hf in H.
  rewrite andb_false_r in H. discriminate.
Qed.

Lemma verdict_some_failed txResult txInfos :
  forallb Success txInfos = false ->
  exists pre fail post,
    txInfos = pre ++ fail :: post /\ forallb Success pre = true /\
    Success fail = false /\
    verdict txResult txInfos = Throw (Error (RawLog fail)).
Proof.
  intros H. unfold verdict.
  pose proof (find_first_failing txInfos) as F.
  destruct (find _ txInfos) as [fail|]; [|congruence].
  destruct F as [pre [post [E [Hp Hf]]]].
  exists pre, fail, post. auto.
Qed.

(** In a trace of the loop, what lies between two consecutive queries is
    one sleep of 500 ms. *)
Lemma PollTrace_between hash tr :
  PollTrace hash tr ->
  forall l1 h1 mid h2 l2,
    tr = l1 ++ queryTxInfo h1 :: mid ++ queryTxInfo h2 :: l2 ->
    forallb (fun e => negb (isQuery e)) mid = true ->
    mid = [sleep 500].
Proof.
  induction 1 as [| |tr Htr IH]; intros l1 h1 mid h2 l2 E Hmid.
  - destruct l1; discriminate.
  - destruct l1 as [|e [|e' l1]]; simpl in E; try discriminate.
    destruct mid; discriminate.
  - destruct l1 as [|e l1]; simpl in E.
    + injection E as _ E.
      destruct mid as [|e mid]; simpl in E; [discriminate|].
      injection E as <- E.
      destruct mid as [|e mid]; [reflexivity|].
      simpl in Hmid. subst tr. inversion Htr; subst; simpl in Hmid; discriminate.
    + injection E as _ E.
      destruct l1 as [|e' l1]; simpl in E; [discriminate|].
      injection E as _ E.
      exact (IH _ _ _ _ _ E Hmid).
Qed.

Lemma queries_emptyRounds hash k : queries (emptyRounds hash k) = k.
Proof.
  unfold queries. induction k as [|k IH]; simpl; [reflexivity|].
  now rewrite IH.
Qed.

End VerdictFacts.

(* ================================================================= *)
(** * The claims about [fetchClient] *)
(* ================================================================= *)

Section PollingClaims.

Import TxPolling.

(** C1, as amended.  After a successful post, if the loop reaches
    iteration [k] without seeing the abort signal and the [k]-th query is
    the first to return a non-empty list, then the function has issued
    exactly [k + 1] queries for the transaction hash, one sleep after each
    empty one, and it returns [{ txResult, txInfos }] when every record has
    [Success = true] and throws [Error] of the first failing record's
    [RawLog] otherwise. *)
Theorem fetchClient_first_answer (w : World) (txResult : TxResult) (k fuel : nat) :
  let hash := txhash (result txResult) in
  let txInfos := indexer w k hash in
  success txResult = true ->
  reaches w hash k ->
  aborted w k = false ->
  txInfos <> [] ->
  (k < fuel)%nat ->
  fetchClient w txResult fuel =
    (inProgressUpdate txResult :: emptyRounds hash k ++ [queryTxInfo hash],
     Some (verdict txResult txInfos)) /\
  (forallb Success txInfos = true ->
     verdict txResult txInfos = Return txResult txInfos) /\
  (forallb Success txInfos = false ->
     exists pre fail post,
       txInfos = pre ++ fail :: post /\ forallb Success pre = true /\
       Success fail = false /\
       verdict txResult txInfos = Throw (Error (RawLog fail))).
Proof.
  intros hash txInfos Hs Hr Ha Hne Hlt.
  split; [|split].
  - unfold fetchClient. rewrite Hs. cbn [negb].
    rewrite (poll_first_answer w txResult k fuel Hr Ha Hne Hlt). reflexivity.
  - apply verdict_all_ok.
  - apply verdict_some_failed.
Qed.

Lemma fetchClient_first_answer_witness :
  fetchClient (w_third [info_ok; info_bad]) tx_ok 5 =
    ([inProgressUpdate tx_ok;
      queryTxInfo "A1B2"; sleep 500; queryTxInfo "A1B2"; sleep 500;
      queryTxInfo "A1B2"],
     Some (Throw (Error "insufficient funds"))).
Proof.
  destruct (fetchClient_first_answer (w_third [info_ok; info_bad]) tx_ok 2 5)
    as [E _].
  - reflexivity.
  - intros j Hj. destruct j as [|[|j]]; [split; reflexivity ..|lia].
  - reflexivity.
  - discriminate.
  - lia.
  - exact E.
Defined.

(** C1 as stated fails when the abort signal is seen first: the indexer
    would answer the first query with one successful record, yet no query
    is issued and the function throws [stopSignal] instead of returning. *)
Lemma fetchClient_abort_before_answer :
  success tx_ok = true /\
  indexer w_aborted 0 (txhash (result tx_ok)) = [info_ok] /\
  forallb Success [info_ok] = true /\
  fetchClient w_aborted tx_ok 1 =
    ([inProgressUpdate tx_ok], Some (Throw stopSignal)) /\
  queries (fst (fetchClient w_aborted tx_ok 1)) = 0%nat /\
  snd (fetchClient w_aborted tx_ok 1) <> Some (Return tx_ok [info_ok]).
Proof. repeat split. discriminate. Qed.

(** C2, as amended.  The loop has no retry bound.  After a successful
    post it ends exactly when some iteration sees the abort signal or a
    non-empty answer: it ends within [k + 1] iterations when that happens at
    iteration [k], and it runs through any number of iterations while
    neither happens. *)
Theorem fetchClient_terminates_iff (w : World) (txResult : TxResult) :
  let hash := txhash (result txResult) in
  success txResult = true ->
  ((exists fuel o, snd (fetchClient w txResult fuel) = Some o) <->
   (exists k, aborted w k = true \/ indexer w k hash <> [])) /\
  (forall k, aborted w k = true \/ indexer w k hash <> [] ->
     forall fuel, (k < fuel)%nat ->
       exists o, snd (fetchClient w txResult fuel) = Some o) /\
  (forall fuel, reaches w hash fuel ->
     fetchClient w txResult fuel =
       (inProgressUpdate txResult :: emptyRounds hash fuel, None)).
Proof.
  intros hash Hs.
  assert (Hfc : forall fuel,
            snd (fetchClient w txResult fuel) = snd (poll w txResult fuel 0)).
  { intros fuel. unfold fetchClient. rewrite Hs. cbn [negb].
    destruct (poll w txResult fuel 0); reflexivity. }
  assert (Hend : forall k, aborted w k = true \/ indexer w k hash <> [] ->
            forall fuel, (k < fuel)%nat ->
              exists o, snd (fetchClient w txResult fuel) = Some o).
  { intros k Hev fuel Hlt. rewrite Hfc.
    destruct (first_event w txResult (S k)) as [Hr | [k0 [Hk0 [Hr Hev0]]]].
    - exfalso. destruct (Hr k) as [Ha He]; [lia|].
      destruct Hev as [Hev|Hev]; [congruence|]. apply Hev. exact He.
    - destruct (aborted w k0) eqn:Ha.
      + rewrite (poll_first_abort w txResult k0 fuel Hr Ha) by lia.
        cbn [snd]. eauto.
      + destruct Hev0 as [Hev0|Hev0]; [discriminate|].
        rewrite (poll_first_answer w txResult k0 fuel Hr Ha Hev0) by lia.
        cbn [snd]. eauto. }
  split; [split|split].
  - intros [fuel [o H]]. rewrite Hfc in H.
    destruct (poll_finished w txResult fuel 0 o H) as [k [_ Hk]].
    exists k. exact Hk.
  - intros [k Hk]. exists (S k). apply (Hend k Hk). lia.
  - exact Hend.
  - intros fuel Hr. unfold fetchClient. rewrite Hs. cbn [negb].
    rewrite (poll_running w txResult fuel Hr). reflexivity.
Qed.

Lemma fetchClient_terminates_iff_witness :
  exists o, snd (fetchClient (w_third [info_ok]) tx_ok 3) = Some o.
Proof.
  destruct (fetchClient_terminates_iff (w_third [info_ok]) tx_ok eq_refl)
    as [_ [H _]].
  apply (H 2%nat); [right; discriminate | lia].
Defined.

(** C2 as stated fails: with an indexer that never has the transaction
    and a signal that never fires, no number of iterations ends the loop. *)
Lemma fetchClient_no_retry_bound :
  success tx_ok = true /\
  ~ (exists fuel, snd (fetchClient w_silent tx_ok fuel) <> None).
Proof.
  split; [reflexivity|]. intros [fuel H]. apply H.
  unfold fetchClient. cbn [success tx_ok negb].
  rewrite (poll_running w_silent tx_ok fuel); [reflexivity|].
  intros j _. split; reflexivity.
Qed.

(** C3.  When the awaited post result has [success = false] the function
    throws [TxError] built from [txResult.msgs] and calls nothing: no
    progress update, no indexer query, no sleep.  The posting error is
    thrown if and only if [success = false]. *)
Theorem fetchClient_post_failed (w : World) (txResult : TxResult) (fuel : nat) :
  (success txResult = false ->
     fetchClient w txResult fuel =
       ([], Some (Throw (TxError (msgs txResult))))) /\
  ((exists m, snd (fetchClient w txResult fuel) = Some (Throw (TxError m))) <->
     success txResult = false).
Proof.
  split; [|split].
  - intros Hs. unfold fetchClient. rewrite Hs. reflexivity.
  - intros [m H]. destruct (success txResult) eqn:Hs; [|reflexivity].
    exfalso. unfold fetchClient in H. rewrite Hs in H. cbn [negb] in H.
    pose proof (poll_never_TxError w txResult fuel 0 m) as N.
    destruct (poll w txResult fuel 0). exact (N H).
  - intros Hs. exists (msgs txResult).
    unfold fetchClient. rewrite Hs. reflexivity.
Qed.

Lemma fetchClient_post_failed_witness :
  fetchClient w_silent tx_failed 7 = ([], Some (Throw (TxError ["out of gas"]))).
Proof.
  exact (proj1 (fetchClient_post_failed w_silent tx_failed 7) eq_refl).
Defined.

(** C7.  In every run of the loop, what happens between two consecutive
    indexer queries is one sleep of 500 ms; and when the loop reaches an
    iteration at whose top [signal.aborted] holds, the function throws
    [stopSignal] having issued only the queries of the earlier
    iterations. *)
Theorem fetchClient_sleep_and_abort (w : World) (txResult : TxResult) (fuel : nat) :
  let hash := txhash (result txResult) in
  success txResult = true ->
  (forall l1 h1 mid h2 l2,
     fst (fetchClient w txResult fuel) =
       l1 ++ queryTxInfo h1 :: mid ++ queryTxInfo h2 :: l2 ->
     forallb (fun e => negb (isQuery e)) mid = true ->
     mid = [sleep 500]) /\
  (forall k, (k < fuel)%nat -> reaches w hash k -> aborted w k = true ->
     fetchClient w txResult fuel =
       (inProgressUpdate txResult :: emptyRounds hash k,
        Some (Throw stopSignal)) /\
     queries (fst (fetchClient w txResult fuel)) = k).
Proof.
  intros hash Hs. split.
  - intros l1 h1 mid h2 l2 E Hmid.
    unfold fetchClient in E. rewrite Hs in E. cbn [negb] in E.
    pose proof (poll_trace_shape w txResult fuel 0) as Hsh.
    destruct (poll w txResult fuel 0) as [tr out]. cbn [fst] in E, Hsh.
    destruct l1 as [|e l1]; [discriminate|].
    injection E as _ E.
    exact (PollTrace_between _ _ Hsh _ _ _ _ _ E Hmid).
  - intros k Hlt Hr Ha.
    assert (E : fetchClient w txResult fuel =
                  (inProgressUpdate txResult :: emptyRounds hash k,
                   Some (Throw stopSignal))).
    { unfold fetchClient. rewrite Hs. cbn [negb].
      rewrite (poll_first_abort w txResult k fuel Hr Ha Hlt). reflexivity. }
    split; [exact E|]. rewrite E. cbn [fst].
    unfold queries. cbn [filter isQuery]. apply queries_emptyRounds.
Qed.

Lemma fetchClient_sleep_and_abort_witness :
  fetchClient w_abort_third tx_ok 9 =
    ([inProgressUpdate tx_ok;
      queryTxInfo "A1B2"; sleep 500; queryTxInfo "A1B2"; sleep 500],
     Some (Throw stopSignal)) /\
  queries (fst (fetchClient w_abort_third tx_ok 9)) = 2%nat.
Proof.
  destruct (fetchClient_sleep_and_abort w_abort_third tx_ok 9 eq_refl)
    as [_ H].
  apply (H 2%nat).
  - lia.
  - intros j Hj. destruct j as [|[|j]]; [split; reflexivity ..|lia].
  - reflexivity.
Defined.

End PollingClaims.

(* ================================================================= *)
(** * Properties of the decimal numbers *)
(* ================================================================= *)

Section BigArith.

Import BigJs.

Lemma pow10_add a b :
  Zpos (pow10 (a + b)) = (Zpos (pow10 a) * Zpos (pow10 b))%Z.
Proof.
  induction a as [|a IH]; cbn [Nat.add pow10].
  - destruct (pow10 b); reflexivity.
  - rewrite Pos2Z.inj_mul, IH, Pos2Z.inj_mul. ring.
Qed.

Lemma pow10_max_l a b :
  Zpos (pow10 (Nat.max a b)) =
  (Zpos (pow10 (Nat.max a b - a)) * Zpos (pow10 a))%Z.
Proof. rewrite <- pow10_add. do 2 f_equal. lia. Qed.

Lemma pow10_max_r a b :
  Zpos (pow10 (Nat.max a b)) =
  (Zpos (pow10 (Nat.max a b - b)) * Zpos (pow10 b))%Z.
Proof. rewrite <- pow10_add. do 2 f_equal. lia. Qed.

(** Sums, differences and products are exact. *)
Lemma toQ_Badd x y : toQ (Badd x y) == toQ x + toQ y.
Proof.
  destruct x as [cx sx], y as [cy sy].
  unfold toQ, Badd, Qeq. cbn [coef scale Qnum Qden Qplus].
  rewrite Pos2Z.inj_mul.
  pose proof (pow10_max_l sx sy) as Hx. pose proof (pow10_max_r sx sy) as Hy.
  set (P := Zpos (pow10 (Nat.max sx sy))) in *.
  set (A := Zpos (pow10 (Nat.max sx sy - sx))) in *.
  set (B := Zpos (pow10 (Nat.max sx sy - sy))) in *.
  set (X := Zpos (pow10 sx)) in *. set (Y := Zpos (pow10 sy)) in *.
  transitivity (cx * (A * X) * Y + cy * (B * Y) * X)%Z; [ring|].
  rewrite <- Hx, <- Hy. ring.
Qed.

Lemma toQ_negate x : toQ (negate x) == - toQ x.
Proof. destruct x. reflexivity. Qed.

Lemma toQ_Bsub x y : toQ (Bsub x y) == toQ x - toQ y.
Proof.
  destruct x as [cx sx], y as [cy sy].
  unfold toQ, Bsub, Qeq, Qminus. cbn [coef scale Qnum Qden Qplus Qopp].
  rewrite Pos2Z.inj_mul.
  pose proof (pow10_max_l sx sy) as Hx. pose proof (pow10_max_r sx sy) as Hy.
  set (P := Zpos (pow10 (Nat.max sx sy))) in *.
  set (A := Zpos (pow10 (Nat.max sx sy - sx))) in *.
  set (B := Zpos (pow10 (Nat.max sx sy - sy))) in *.
  set (X := Zpos (pow10 sx)) in *. set (Y := Zpos (pow10 sy)) in *.
  transitivity (cx * (A * X) * Y - cy * (B * Y) * X)%Z; [ring|].
  rewrite <- Hx, <- Hy. ring.
Qed.

Lemma toQ_Bmul x y : toQ (Bmul x y) == toQ x * toQ y.
Proof.
  destruct x as [cx sx], y as [cy sy].
  unfold toQ, Bmul, Qeq. cbn [coef scale Qnum Qden Qmult].
  rewrite Pos2Z.inj_mul, pow10_add. ring.
Qed.

Lemma Bgt_true x y : Bgt x y = true -> toQ y < toQ x.
Proof.
  unfold Bgt, Bcmp, Qlt, toQ. cbn [Qnum Qden].
  destruct (Z.compare_spec (coef x * Zpos (pow10 (scale y)))
                           (coef y * Zpos (pow10 (scale x))));
    try discriminate. intros _. lia.
Qed.

Lemma Bgt_false x y : Bgt x y = false -> toQ x <= toQ y.
Proof.
  unfold Bgt, Bcmp, Qle, toQ. cbn [Qnum Qden].
  destruct (Z.compare_spec (coef x * Zpos (pow10 (scale y)))
                           (coef y * Zpos (pow10 (scale x))));
    try discriminate; intros _; lia.
Qed.

(** [min] gives the smaller number. *)
Lemma toQ_min (x y : Big) :
  exists m, BigMath.min x y = Ok m /\ toQ m == Qmin (toQ x) (toQ y).
Proof.
  unfold BigMath.min. cbn [big bind].
  destruct (Bgt x y) eqn:E; eexists; split; try reflexivity.
  - apply Bgt_true in E. symmetry. apply Q.min_r. apply Qlt_le_weak. exact E.
  - apply Bgt_false in E. symmetry. apply Q.min_l. exact E.
Qed.

(** [floor] gives the integer part: the value with its fraction cut off. *)
Lemma floor_Qtrunc (x : Big) :
  BigMath.floor x = Ok (mkBig (BigMath.Qtrunc (toQ x)) 0).
Proof. reflexivity. Qed.

(** Cutting the fraction off is the floor of a number that is not
    negative and the ceiling of one that is not positive. *)
Lemma Qtrunc_nonneg q : 0 <= q -> BigMath.Qtrunc q = Qfloor q.
Proof.
  destruct q as [n d]. unfold Qle, BigMath.Qtrunc, Qfloor. cbn [Qnum Qden].
  intros H. apply Z.quot_div_nonneg; lia.
Qed.

Lemma Qtrunc_nonpos q : q <= 0 -> BigMath.Qtrunc q = Qceiling q.
Proof.
  destruct q as [n d]. unfold Qle, BigMath.Qtrunc, Qceiling, Qfloor, Qopp.
  cbn [Qnum Qden]. intros H.
  rewrite <- (Z.opp_involutive n) at 1.
  rewrite Z.quot_opp_l by lia. f_equal. apply Z.quot_div_nonneg; lia.
Qed.

Lemma Qtrunc_comp q q' : q == q' -> BigMath.Qtrunc q = BigMath.Qtrunc q'.
Proof.
  intros H. destruct (Qlt_le_dec q 0) as [N|P].
  - rewrite (Qtrunc_nonpos q), (Qtrunc_nonpos q').
    + now apply Qceiling_comp.
    + rewrite <- H. now apply Qlt_le_weak.
    + now apply Qlt_le_weak.
  - rewrite (Qtrunc_nonneg q), (Qtrunc_nonneg q').
    + now apply Qfloor_comp.
    + now rewrite <- H.
    + exact P.
Qed.

Lemma toQ_integer (z : Z) : toQ (mkBig z 0) == inject_Z z.
Proof. reflexivity. Qed.

Lemma Qfloor_make a b : Qfloor (a # b) = (a / Zpos b)%Z.
Proof. reflexivity. Qed.

Lemma Qnum_sgn_comp q q' : q == q' -> Z.sgn (Qnum q) = Z.sgn (Qnum q').
Proof.
  unfold Qeq. intros H.
  assert (E : Z.sgn (Qnum q * Zpos (Qden q')) = Z.sgn (Qnum q' * Zpos (Qden q)))
    by now rewrite H.
  rewrite !Z.sgn_mul in E. cbn [Z.sgn] in E. lia.
Qed.

Lemma roundHalfUp_comp dp q q' :
  q == q' -> roundHalfUp dp q = roundHalfUp dp q'.
Proof.
  intros H. unfold roundHalfUp.
  rewrite (Qnum_sgn_comp _ _ H). do 2 f_equal.
  apply Qfloor_comp. now rewrite H.
Qed.

(** A quotient is the exact quotient rounded half up at [DP] places. *)
Lemma toQ_Bdiv x y :
  coef y <> 0%Z ->
  exists q, Bdiv x y = Ok q /\ toQ q == roundHalfUp DP (toQ x / toQ y).
Proof.
  intros Hy. unfold Bdiv.
  destruct (Z.eqb_spec (coef y) 0) as [E|_]; [contradiction|].
  eexists. split; [reflexivity|].
  destruct x as [cx sx], y as [cy sy]. cbn [coef scale] in *.
  unfold roundHalfUp, toQ at 1. cbn [coef scale].
  generalize DP. intros dp.
  assert (Hsgn : Z.sgn (Qnum (toQ (mkBig cx sx) / toQ (mkBig cy sy))) =
                 (Z.sgn cx * Z.sgn cy)%Z).
  { unfold toQ, Qdiv, Qmult, Qinv. cbn [coef scale Qnum Qden].
    destruct cy as [|c|c]; [contradiction| |]; cbn [Qnum Qden];
      rewrite Z.sgn_mul; cbn [Z.sgn]; ring. }
  rewrite Hsgn.
  assert (Hfl : Qfloor (Qabs (toQ (mkBig cx sx) / toQ (mkBig cy sy)) *
                        (Zpos (pow10 dp) # 1) + (1 # 2)) =
                ((2 * (Z.abs cx * Zpos (pow10 (sy + dp))) +
                  Z.abs cy * Zpos (pow10 sx)) /
                 (2 * (Z.abs cy * Zpos (pow10 sx))))%Z).
  { rewrite pow10_add.
    set (X := pow10 sx). set (Y := pow10 sy). set (P := pow10 dp).
    assert (Hd : (0 < Z.abs cy)%Z) by lia.
    destruct (Z.abs cy) as [|a|a] eqn:Ea; try lia.
    replace (2 * (Zpos a * Zpos X))%Z with (Zpos (2 * (a * X))) by reflexivity.
    rewrite <- Qfloor_make. apply Qfloor_comp.
    unfold Qdiv. rewrite Qabs_Qmult, Qabs_Qinv.
    unfold toQ. cbn [coef scale]. fold X Y.
    change (Qabs (cx # X)) with (Z.abs cx # X).
    change (Qabs (cy # Y)) with (Z.abs cy # Y).
    rewrite Ea. 
    unfold Qinv, Qmult, Qplus, Qeq. cbn [Qnum Qden].
    rewrite !Pos2Z.inj_mul. 
    change (Zpos 2) with 2%Z. ring. }
  rewrite Hfl. reflexivity.
Qed.
End BigArith.

Section BigStrings.

Import BigJs.

Lemma strip_value s : forall c,
  fst (strip c s) # pow10 (snd (strip c s)) == c # pow10 s.
Proof.
  induction s as [|s IH]; intros c; cbn [strip].
  - reflexivity.
  - destruct (Z.eqb_spec (c mod 10) 0) as [E|E]; [|reflexivity].
    rewrite IH. unfold Qeq. cbn [Qnum Qden pow10].
    rewrite Pos2Z.inj_mul.
    pose proof (Z.div_mod c 10). lia.
Qed.

Lemma toQ_normalize b : toQ (normalize b) == toQ b.
Proof.
  unfold normalize, toQ. pose proof (strip_value (scale b) (coef b)) as H.
  destruct (strip (coef b) (scale b)). exact H.
Qed.

Lemma length_zeros n : String.length (zeros n) = n.
Proof. induction n; simpl; congruence. Qed.

Lemma length_append (a b : string) :
  String.length (a ++ b) = (String.length a + String.length b)%nat.
Proof. induction a; simpl; congruence. Qed.

Lemma splitAt_append n : forall s,
  (fst (splitAt n s) ++ snd (splitAt n s))%string = s.
Proof.
  induction n as [|n IH]; intros [|c s]; try reflexivity.
  cbn [splitAt]. specialize (IH s). destruct (splitAt n s).
  cbn [fst snd] in *. simpl. now rewrite IH.
Qed.

Lemma splitAt_length n : forall s,
  (n <= String.length s)%nat ->
  String.length (fst (splitAt n s)) = n /\
  String.length (snd (splitAt n s)) = (String.length s - n)%nat.
Proof.
  induction n as [|n IH]; intros [|c s] H; simpl in *; try (split; reflexivity); try lia.
  specialize (IH s). destruct (splitAt n s). cbn [fst snd] in *.
  simpl. destruct IH; [lia|]. split; congruence.
Qed.

Lemma uint_of_string_app_l (a b : string) u :
  NilEmpty.uint_of_string (a ++ b) = Some u ->
  exists ua, NilEmpty.uint_of_string a = Some ua.
Proof.
  revert u. induction a as [|c a IH]; intros u H; simpl in *.
  - eauto.
  - destruct (NilEmpty.uint_of_string (a ++ b)) as [u'|] eqn:E; [|discriminate].
    destruct (IH _ eq_refl) as [ua ->].
    apply uint_of_char_spec in H.
    intuition subst; simpl; eauto.
Qed.

Lemma uint_of_string_app_r (a b : string) u :
  NilEmpty.uint_of_string (a ++ b) = Some u ->
  exists ub, NilEmpty.uint_of_string b = Some ub.
Proof.
  revert u. induction a as [|c a IH]; intros u H; simpl in *.
  - eauto.
  - destruct (NilEmpty.uint_of_string (a ++ b)) as [u'|] eqn:E; [|discriminate].
    exact (IH _ eq_refl).
Qed.

Lemma digit_not_special c u u' :
  uint_of_char c (Some u) = Some u' ->
  Ascii.eqb c "." = false /\ Ascii.eqb c "-" = false /\ isE c = false.
Proof.
  intros H. apply uint_of_char_spec in H.
  intuition subst; repeat split; reflexivity.
Qed.

(** Digits, and digits around a point, hold no exponent mark. *)
Lemma splitExp_digits i u :
  NilEmpty.uint_of_string i = Some u ->
  forall rest m e, splitExp rest = (m, e) ->
    splitExp (i ++ rest) = ((i ++ m)%string, e).
Proof.
  revert u. induction i as [|c i IH]; intros u H rest m e Hr; simpl in *.
  - exact Hr.
  - destruct (NilEmpty.uint_of_string i) as [u'|] eqn:E; [|discriminate].
    destruct (digit_not_special _ _ _ H) as [_ [_ HE]]. rewrite HE.
    now rewrite (IH _ eq_refl _ _ _ Hr).
Qed.

Lemma splitDot_digits i u :
  NilEmpty.uint_of_string i = Some u ->
  splitDot i = (i, None) /\
  forall f, splitDot (i ++ String "." f) = (i, Some f).
Proof.
  revert u. induction i as [|c i IH]; intros u H; simpl in *.
  - split; reflexivity.
  - destruct (NilEmpty.uint_of_string i) as [u'|] eqn:E; [|discriminate].
    destruct (digit_not_special _ _ _ H) as [Hdot _]. rewrite Hdot.
    destruct (IH _ eq_refl) as [H1 H2]. rewrite H1. split; [reflexivity|].
    intros f. now rewrite H2.
Qed.

Lemma uint_of_zeros k d u :
  NilEmpty.uint_of_string d = Some u ->
  exists u', NilEmpty.uint_of_string (zeros k ++ d) = Some u' /\
             N.of_uint u' = N.of_uint u.
Proof.
  intros H. induction k as [|k [u' [E1 E2]]]; simpl.
  - eauto.
  - rewrite E1. simpl. exists (Decimal.D0 u'). split; [reflexivity|exact E2].
Qed.

Lemma append_empty_r (s : string) : (s ++ "")%string = s.
Proof. induction s; simpl; congruence. Qed.

(** Printing and reading back gives the number, without the trailing
    zeros of its fraction. *)
Lemma parse_toFixed b : parse (toFixed b) = Ok (normalize b).
Proof.
  unfold toFixed, normalize.
  destruct (strip (coef b) (scale b)) as [c s].
  set (d := digitsOfN (Z.to_N (Z.abs c))).
  assert (Hd : NilEmpty.uint_of_string d = Some (N.to_uint (Z.to_N (Z.abs c)))).
  { apply NilEmpty.usu. }
  destruct (uint_of_zeros (S s - String.length d) d _ Hd) as [up [Hp Hv]].
  set (p := (zeros (S s - String.length d) ++ d)%string) in *.
  assert (Hlen : (S s <= String.length p)%nat).
  { unfold p. rewrite length_append, length_zeros. lia. }
  pose proof (splitAt_append (String.length p - s) p) as Happ.
  destruct (splitAt_length (String.length p - s) p) as [Hli Hlf]; [lia|].
  destruct (splitAt (String.length p - s) p) as [i f]. cbn [fst snd] in *.
  assert (Hf : String.length f = s) by lia.
  rewrite <- Happ in Hp.
  destruct (uint_of_string_app_l _ _ _ Hp) as [ui Hi].
  destruct (splitDot_digits _ _ Hi) as [Hs0 Hs1].
  destruct i as [|c0 i']; [simpl in Hli; lia|].
  assert (Hc0 : Ascii.eqb c0 "-" = false).
  { simpl in Hi. destruct (NilEmpty.uint_of_string i'); [|discriminate].
    apply (digit_not_special _ _ _ Hi). }
  assert (Hval : Z.of_N (N.of_uint up) = Z.abs c).
  { rewrite Hv, Unsigned.of_to. lia. }
  assert (Hman : parseMantissa
                  (String c0 i' ++ match s with O => "" | S _ => String "." f end)
                = Ok (mkBig (Z.abs c) s)).
  { unfold parseMantissa. destruct s as [|s'].
    - destruct f; [|discriminate].
      rewrite append_empty_r, Hs0. rewrite append_empty_r in Hp |- *.
      cbn [append] in Hp |- *. rewrite Hp, Hval. reflexivity.
    - rewrite Hs1. cbn [append] in Hp |- *. rewrite Hp, Hval, Hf. reflexivity. }
  assert (Hexp : splitExp
                  (String c0 i' ++ match s with O => "" | S _ => String "." f end)
                = ((String c0 i' ++ match s with O => "" | S _ => String "." f end)%string,
                   None)).
  { destruct (uint_of_string_app_r _ _ _ Hp) as [uf Huf].
    destruct s as [|s'].
    - rewrite (splitExp_digits _ _ Hi "" "" None eq_refl). reflexivity.
    - rewrite (splitExp_digits _ _ Hi (String "." f) (String "." f) None);
        [reflexivity|].
      cbn [splitExp]. change (isE ".") with false. cbv iota.
      pose proof (splitExp_digits _ _ Huf "" "" None eq_refl) as Hf'.
      rewrite !append_empty_r in Hf'. rewrite Hf'. reflexivity. }
  assert (Hun : parseUnsigned
                  (String c0 i' ++ match s with O => "" | S _ => String "." f end)
                = Ok (mkBig (Z.abs c) s)).
  { unfold parseUnsigned. rewrite Hexp, Hman. reflexivity. }
  destruct (Z.ltb_spec c 0) as [Hneg|Hpos].
  - cbn [append parse] in Hun |- *. change (Ascii.eqb "-" "-") with true.
    cbv iota. rewrite Hun. cbn [bind]. unfold negate. cbn [coef scale].
    do 2 f_equal. lia.
  - cbn [append parse] in Hun |- *. rewrite Hc0, Hun. do 2 f_equal. lia.
Qed.

Lemma denotes_toFixed b : denotes (toFixed b) (toQ b).
Proof.
  exists (normalize b). split; [apply parse_toFixed|apply toQ_normalize].
Qed.

(** Moving the point: [shift b e] is [b * 10^e]. *)
Lemma toQ_shift_up b (n : nat) :
  toQ (shift b (Z.of_nat n)) == toQ b * (Zpos (pow10 n) # 1).
Proof.
  unfold shift. destruct (Z.ltb_spec (Z.of_nat n) 0) as [H|_]; [lia|].
  rewrite Nat2Z.id.
  destruct (Z.leb_spec (Z.of_nat n) (Z.of_nat (scale b))) as [H|H];
    unfold toQ, Qeq; cbn [coef scale Qnum Qden Qmult].
  - rewrite Pos.mul_1_r.
    replace (scale b) with ((scale b - n) + n)%nat at 1 by lia.
    rewrite pow10_add. ring.
  - rewrite Pos.mul_1_r. cbn [pow10].
    replace n with ((n - scale b) + scale b)%nat at 2 by lia.
    rewrite pow10_add. ring.
Qed.

Lemma toQ_shift_down b (n : nat) :
  toQ (shift b (- Z.of_nat (S n))) == toQ b * (1 # pow10 (S n)).
Proof.
  unfold shift. destruct (Z.ltb_spec (- Z.of_nat (S n)) 0) as [_|H]; [|lia].
  rewrite Z.opp_involutive, Nat2Z.id.
  unfold toQ, Qeq. cbn [coef scale Qnum Qden Qmult].
  rewrite Pos2Z.inj_mul, pow10_add. ring.
Qed.

(** What the model reads and prints. *)
Example parse_samples :
  parse "12.50" = Ok (mkBig 1250 2) /\
  parse "-0.001" = Ok (mkBig (-1) 3) /\
  parse ".5" = Ok (mkBig 5 1) /\
  parse "5." = Ok (mkBig 5 0) /\
  parse "1.5E-7" = Ok (mkBig 15 8) /\
  parse "12.345e+5" = Ok (mkBig 1234500 0) /\
  parse "" = Throw InvalidNumber /\
  parse "." = Throw InvalidNumber /\
  parse "-" = Throw InvalidNumber /\
  parse "1.2.3" = Throw InvalidNumber /\
  parse "1e" = Throw InvalidNumber /\
  parse "uusd" = Throw InvalidNumber.
Proof. repeat split. Qed.

Example print_samples :
  toFixed (mkBig 1250 2) = "12.5" /\
  toFixed (mkBig (-1) 3) = "-0.001" /\
  toFixed (mkBig 0 3) = "0" /\
  toFixed (mkBig 100 0) = "100" /\
  toString (mkBig 1 6) = "0.000001" /\
  toString (mkBig 123 9) = "1.23e-7" /\
  toString (mkBig 100000000000000000000 0) = "100000000000000000000" /\
  toString (mkBig (-1000000000000000000000) 0) = "-1e+21".
Proof. repeat split. Qed.

Example div_samples :
  Bdiv (mkBig 1 0) (mkBig 8 0) = Ok (mkBig 12500000000000000000 20) /\
  Bdiv (mkBig 1 0) (mkBig 3 0) = Ok (mkBig 33333333333333333333 20) /\
  Bdiv (mkBig 2 0) (mkBig (-3) 0) = Ok (mkBig (-66666666666666666667) 20) /\
  Bdiv (mkBig 1 0) (mkBig 0 2) = Throw DivisionByZero.
Proof. repeat split. Qed.

(** No finite decimal is one third. *)
Lemma pow10_mod3 n : (Zpos (pow10 n) mod 3 = 1)%Z.
Proof.
  induction n as [|n IH]; [reflexivity|].
  cbn [pow10]. rewrite Pos2Z.inj_mul, Z.mul_mod, IH by lia. reflexivity.
Qed.

Lemma no_Big_is_one_third b : ~ toQ b == 1 # 3.
Proof.
  unfold toQ, Qeq. cbn [Qnum Qden]. intros H.
  pose proof (pow10_mod3 (scale b)) as M.
  rewrite Z.mul_1_l in H. rewrite <- H in M.
  rewrite Z.mod_mul in M by lia. discriminate.
Qed.

End BigStrings.

(* ================================================================= *)
(** * Properties of the calendar model *)
(* ================================================================= *)

Section Calendar.

Import Dates.

Open Scope Z_scope.

Ltac zdiv := Z.div_mod_to_equations; lia.

(** A day number and its civil date determine each other. *)
Lemma civilFromDays_spec z :
  let '(y, m, d) := civilFromDays z in
  daysFromCivil y m d = z /\ 1 <= m <= 12 /\ 1 <= d <= 31.
Proof.
  unfold civilFromDays, daysFromCivil. cbv zeta.
  set (z' := z + 719468).
  set (era := z' / 146097).
  set (doe := z' - era * 146097).
  assert (Hdoe : 0 <= doe <= 146096) by (unfold doe, era; zdiv).
  set (yoe := (doe - doe / 1460 + doe / 36524 - doe / 146096) / 365).
  assert (Hyoe : 0 <= yoe <= 399 /\
                 0 <= doe - (365 * yoe + yoe / 4 - yoe / 100) <= 365)
    by (unfold yoe; zdiv).
  set (doy := doe - (365 * yoe + yoe / 4 - yoe / 100)) in *.
  set (mp := (5 * doy + 2) / 153).
  assert (Hmp : 0 <= mp <= 11) by (unfold mp; zdiv).
  assert (Hd : 1 <= doy - (153 * mp + 2) / 5 + 1 <= 31) by (unfold mp; zdiv).
  assert (Hera : (yoe + era * 400) / 400 = era) by zdiv.
  destruct (Z.ltb_spec mp 10) as [Hlt|Hge].
  - destruct (Z.leb_spec (mp + 3) 2) as [H2|H2]; [lia|].
    destruct (Z.ltb_spec 2 (mp + 3)) as [H3|H3]; [|lia].
    replace (mp + 3 - 3) with mp by lia.
    rewrite Hera. split; [|lia].
    replace (yoe + era * 400 - era * 400) with yoe by lia.
    unfold doy, doe, z'. lia.
  - destruct (Z.leb_spec (mp - 9) 2) as [H2|H2]; [|lia].
    destruct (Z.ltb_spec 2 (mp - 9)) as [H3|H3]; [lia|].
    replace (mp - 9 + 9) with mp by lia.
    replace (yoe + era * 400 + 1 - 1) with (yoe + era * 400) by lia.
    rewrite Hera. split; [|lia].
    replace (yoe + era * 400 - era * 400) with yoe by lia.
    unfold doy, doe, z'. lia.
Qed.

(** Within a month the day number moves with the day of the month. *)
Lemma daysFromCivil_day y m d :
  daysFromCivil y m d = daysFromCivil y m 1 + (d - 1).
Proof. unfold daysFromCivil. cbv zeta. lia. Qed.

Lemma daysFromCivil_firstOfMonth y m d :
  1 <= m <= 12 ->
  daysFromCivil y m d = firstOfMonth (12 * y + (m - 1)) + (d - 1).
Proof.
  intros Hm. unfold firstOfMonth.
  replace ((12 * y + (m - 1)) / 12) with y by zdiv.
  replace ((12 * y + (m - 1)) mod 12 + 1) with m by zdiv.
  apply daysFromCivil_day.
Qed.

Lemma isLeap_spec y :
  isLeap y = true <-> (y mod 4 = 0 /\ (y mod 100 <> 0 \/ y mod 400 = 0)).
Proof.
  unfold isLeap.
  rewrite andb_true_iff, orb_true_iff, negb_true_iff, !Z.eqb_eq, Z.eqb_neq.
  reflexivity.
Qed.

(** The days of a year counted from March, in closed form. *)
Lemma year_days y0 :
  let era := y0 / 400 in
  let yoe := y0 - era * 400 in
  era * 146097 + (yoe * 365 + yoe / 4 - yoe / 100) =
  365 * y0 + y0 / 4 - y0 / 100 + y0 / 400.
Proof. cbv zeta. zdiv. Qed.

(** A month is as long as [daysInMonth] says. *)
Lemma firstOfMonth_next j :
  firstOfMonth (j + 1) =
  firstOfMonth j + daysInMonth (j / 12) (j mod 12 + 1).
Proof.
  unfold firstOfMonth, daysFromCivil, daysInMonth. cbv zeta.
  pose proof (Z.mod_pos_bound j 12 ltac:(lia)) as Hr.
  set (y := j / 12). set (r := j mod 12) in *.
  assert (Hj : j = 12 * y + r) by (unfold y, r; zdiv).
  assert (Hcase : r = 0 \/ r = 1 \/ r = 2 \/ r = 3 \/ r = 4 \/ r = 5 \/
                  r = 6 \/ r = 7 \/ r = 8 \/ r = 9 \/ r = 10 \/ r = 11) by lia.
  assert (Hq : forall c, 0 <= c < 12 -> (12 * y + c) / 12 = y) by (intros; zdiv).
  assert (Hm : forall c, 0 <= c < 12 -> (12 * y + c) mod 12 = c) by (intros; zdiv).
  assert (Hq' : (12 * y + 12) / 12 = y + 1) by zdiv.
  assert (Hm' : (12 * y + 12) mod 12 = 0) by zdiv.
  pose proof (year_days y) as Y0. pose proof (year_days (y - 1)) as Y1.
  pose proof (year_days (y + 1 - 1)) as Y2.
  cbv zeta in Y0, Y1, Y2.
  pose proof (isLeap_spec y) as L.
  rewrite Hj.
  destruct Hcase as [E|[E|[E|[E|[E|[E|[E|[E|[E|[E|[E|E]]]]]]]]]]]; rewrite E;
    [ replace (12 * y + 0 + 1) with (12 * y + 1) by lia
    | replace (12 * y + 1 + 1) with (12 * y + 2) by lia
    | replace (12 * y + 2 + 1) with (12 * y + 3) by lia
    | replace (12 * y + 3 + 1) with (12 * y + 4) by lia
    | replace (12 * y + 4 + 1) with (12 * y + 5) by lia
    | replace (12 * y + 5 + 1) with (12 * y + 6) by lia
    | replace (12 * y + 6 + 1) with (12 * y + 7) by lia
    | replace (12 * y + 7 + 1) with (12 * y + 8) by lia
    | replace (12 * y + 8 + 1) with (12 * y + 9) by lia
    | replace (12 * y + 9 + 1) with (12 * y + 10) by lia
    | replace (12 * y + 10 + 1) with (12 * y + 11) by lia
    | replace (12 * y + 11 + 1) with (12 * y + 12) by lia ];
    rewrite ?Hq', ?Hm', ?Hq, ?Hm by lia;
    cbn [Z.add Z.leb Z.ltb Z.eqb Z.compare Pos.compare Pos.compare_cont
         Pos.add Pos.succ Pos.eqb orb];
    try (destruct (isLeap y) eqn:EL;
         [ apply isLeap_spec in EL
         | assert (NL : ~ (y mod 4 = 0 /\ (y mod 100 <> 0 \/ y mod 400 = 0)))
             by (rewrite <- isLeap_spec, EL; discriminate) ]);
    zdiv.
Qed.

Lemma daysInMonth_bounds y m : 28 <= daysInMonth y m <= 31.
Proof.
  unfold daysInMonth.
  destruct (m =? 2); [destruct (isLeap y); lia|].
  destruct ((m =? 4) || (m =? 6) || (m =? 9) || (m =? 11))%bool; lia.
Qed.

(** Earlier months start earlier. *)
Lemma firstOfMonth_mono (n : nat) : forall j,
  firstOfMonth (j - Z.of_nat n) <= firstOfMonth j.
Proof.
  induction n as [|n IH]; intros j.
  - replace (j - Z.of_nat 0) with j by lia. lia.
  - specialize (IH (j - 1)).
    replace (j - Z.of_nat (S n)) with (j - 1 - Z.of_nat n) by lia.
    pose proof (firstOfMonth_next (j - 1)) as Hn.
    replace (j - 1 + 1) with j in Hn by lia.
    pose proof (daysInMonth_bounds ((j - 1) / 12) ((j - 1) mod 12 + 1)).
    lia.
Qed.

(** Going back by months does not move a time stamp forward. *)
Lemma subMonths_not_later t n : 0 <= n -> subMonths t n <= t.
Proof.
  intros Hn. unfold subMonths.
  destruct (Z.eqb_spec n 0) as [_|Hn0]; [lia|].
  pose proof (civilFromDays_spec (t / msPerDay)) as Hc.
  destruct (civilFromDays (t / msPerDay)) as [[y m] d].
  destruct Hc as [Hz [Hm Hd]].
  set (k := 12 * y + (m - 1) - n).
  assert (Hk : 12 * (k / 12) + (k mod 12 + 1 - 1) = k) by zdiv.
  assert (Hm' : 1 <= k mod 12 + 1 <= 12) by zdiv.
  rewrite (daysFromCivil_firstOfMonth _ _ _ Hm') , Hk.
  rewrite (daysFromCivil_firstOfMonth _ _ _ Hm) in Hz.
  pose proof (firstOfMonth_next k) as Hnext.
  pose proof (firstOfMonth_mono (Z.to_nat (n - 1)) (12 * y + (m - 1))) as Hmono.
  replace (12 * y + (m - 1) - Z.of_nat (Z.to_nat (n - 1))) with (k + 1)
    in Hmono by (unfold k; lia).
  pose proof (Z.le_min_r d (daysInMonth (k / 12) (k mod 12 + 1))) as Hmin.
  assert (Hdays : firstOfMonth k +
                  (Z.min d (daysInMonth (k / 12) (k mod 12 + 1)) - 1)
                  <= t / msPerDay) by lia.
  unfold msPerDay in *.
  pose proof (Z.div_mod t 86400000 ltac:(lia)). nia.
Qed.

Lemma subDays_not_later t n : 0 <= n -> subDays t n <= t.
Proof. unfold subDays, msPerDay. lia. Qed.

(** The model of [sub] does not move a time stamp forward when no part of
    the duration is negative. *)
Lemma sub_utc_not_later t d :
  0 <= years d -> 0 <= months d -> 0 <= weeks d -> 0 <= days d ->
  0 <= hours d -> 0 <= minutes d -> 0 <= seconds d ->
  sub_utc t d <= t.
Proof.
  intros Hy Hmo Hw Hd Hh Hmi Hs. unfold sub_utc. cbv zeta.
  pose proof (subMonths_not_later t (months d + 12 * years d) ltac:(lia)).
  pose proof (subDays_not_later (subMonths t (months d + 12 * years d))
                (days d + 7 * weeks d) ltac:(lia)).
  nia.
Qed.












(** 2021-03-31T12:00Z less a month is the last day of February; less a
    year the same day of 2020; 2020-02-29 less a year is 2019-02-28. *)
Example sub_utc_samples :
  civilFromDays (1617192000000 / msPerDay) = (2021, 3, 31) /\
  sub_utc 1617192000000 oneMonth = 1614513600000 /\
  sub_utc 1617192000000 oneYear = 1585656000000 /\
  sub_utc 1617192000000 oneWeek = 1616587200000 /\
  sub_utc 1617192000000 oneDay = 1617105600000 /\
  sub_utc 1582934400000 oneYear = 1551312000000 /\
  sub_utc 0 oneMonth = -2678400000.
Proof. repeat split. Qed.

(** 2021-03-30T20:00Z is the 30th of March in UTC and the 31st nine hours
    ahead: a month earlier is the 28th of February in both, which is a
    day apart. *)
Example sub_zone_samples :
  sub_utc 1617134400000 oneMonth = 1614542400000 /\
  sub_zone utcPlus9 1617134400000 oneMonth = 1614456000000 /\
  sub_zone 0 1617134400000 oneMonth = sub_utc 1617134400000 oneMonth.
Proof. repeat split. Qed.

End Calendar.

(* ================================================================= *)
(** * The claims about [dataMap.interestEarned] *)
(* ================================================================= *)

Section EarnFacts.

Import BigJs InterestEarned.

Lemma parse_nonempty s b :
  parse s = Ok b -> (0 <? String.length s)%nat = true.
Proof. destruct s; [discriminate|reflexivity]. Qed.

Lemma denotes_comp s q q' : denotes s q -> q == q' -> denotes s q'.
Proof.
  intros [b [Hp Hq]] E. exists b. split; [exact Hp|]. now rewrite Hq.
Qed.

(** With a first [now] record, a first exchange rate, and a balance and a
    rate that big.js accepts, the function arrives at its [try]. *)
Lemma interestEarned_reaches_try data referenceNow rest rate rates b er :
  now data = Some (referenceNow :: rest) ->
  latestExchangeRate data = rate :: rates ->
  parse (if (0 <? String.length (CurrentAnchorBalance referenceNow))%nat
         then CurrentAnchorBalance referenceNow else "0") = Ok b ->
  parse (ExchangeRate rate) = Ok er ->
  interestEarned data =
    try_catch
      (floorOfInterest (Bmul b er) (referenceThenOf data) referenceNow)
      (Ok "0").
Proof.
  intros Hn Hl Hb Hr. unfold interestEarned. rewrite Hn, Hl.
  cbn [List.length Nat.eqb at0 nth_error prop bind big].
  rewrite Hb. cbn [bind]. unfold mul. cbn [big]. rewrite Hr. reflexivity.
Qed.

Lemma floorOfInterest_value ctv referenceThen referenceNow cd tw td :
  parse (CurrentDeposit referenceThen) = Ok cd ->
  parse (TotalWithdraw referenceNow) = Ok tw ->
  parse (TotalDeposit referenceNow) = Ok td ->
  floorOfInterest ctv (Some referenceThen) referenceNow =
    Ok (toFixed (mkBig (BigMath.Qtrunc (toQ ctv - toQ cd + toQ tw - toQ td)) 0)).
Proof.
  intros Hcd Htw Htd. unfold floorOfInterest, prop, minus, plus.
  cbn [bind big]. rewrite Hcd. cbn [bind]. rewrite Htw. cbn [bind].
  rewrite Htd. cbn [bind]. rewrite floor_Qtrunc. cbn [bind].
  do 3 f_equal. apply Qtrunc_comp.
  rewrite toQ_Bsub, toQ_Badd, toQ_Bsub. reflexivity.
Qed.

Lemma referenceThenOf_spec data r :
  isThenOrFallback data r -> referenceThenOf data = Some r.
Proof.
  unfold referenceThenOf.
  intros [[ts ->] | [[-> | ->] [fs ->]]]; reflexivity.
Qed.

(** Outside the [try] nothing is caught: without an exchange rate the
    read of [latestExchangeRate[0].ExchangeRate] throws, and so does a
    balance that is not a number. *)
Example interestEarned_throws :
  interestEarned
    {| latestExchangeRate := [];
       fallback := [];
       now := Some [earned "7000" "5000.5" "200" "4000.123"];
       then_ := None |} = Throw TypeError /\
  interestEarned
    {| latestExchangeRate := [rateOf "1.5"];
       fallback := [];
       now := Some [earned "7000" "5000.5" "200" "n/a"];
       then_ := None |} = Throw InvalidNumber.
Proof. split; reflexivity. Qed.

End EarnFacts.

Section EarnClaims.

Import BigJs InterestEarned.

(** C4, as amended.  With a first [now] record, a first exchange rate,
    and every numeric string that is read accepted by big.js,
    [interestEarned] returns the decimal string of the integer part of
    [x = balance * rate - then'.CurrentDeposit + TotalWithdraw -
    TotalDeposit], computed exactly, where [then'] is [then[0]] when
    [then] has an element and [fallback[0]] otherwise.  The integer part
    is [x] with its fraction cut off: [floor(x)] when [x] is not negative,
    and the ceiling of [x] when it is not positive. *)
Theorem interestEarned_whole_part (data : RawData)
    (referenceNow : Earned) (rest : list Earned)
    (rate : ExchangeRateRecord) (rates : list ExchangeRateRecord)
    (referenceThen : Earned) (bal er cd tw td : Big) :
  now data = Some (referenceNow :: rest) ->
  latestExchangeRate data = rate :: rates ->
  isThenOrFallback data referenceThen ->
  parse (CurrentAnchorBalance referenceNow) = Ok bal ->
  parse (ExchangeRate rate) = Ok er ->
  parse (CurrentDeposit referenceThen) = Ok cd ->
  parse (TotalWithdraw referenceNow) = Ok tw ->
  parse (TotalDeposit referenceNow) = Ok td ->
  let x := toQ bal * toQ er - toQ cd + toQ tw - toQ td in
  let v := BigMath.Qtrunc x in
  interestEarned data = Ok (toFixed (mkBig v 0)) /\
  denotes (toFixed (mkBig v 0)) (inject_Z v) /\
  (0 <= x -> v = Qfloor x) /\
  (x <= 0 -> v = Qceiling x).
Proof.
  intros Hn Hl Ht Hb Hr Hcd Htw Htd x v. split; [|split; [|split]].
  - rewrite (interestEarned_reaches_try data _ _ _ _ bal er Hn Hl); [|  |exact Hr].
    + rewrite (referenceThenOf_spec _ _ Ht).
      rewrite (floorOfInterest_value _ _ _ _ _ _ Hcd Htw Htd).
      cbn [try_catch]. do 3 f_equal. apply Qtrunc_comp.
      rewrite toQ_Bmul. reflexivity.
    + rewrite (parse_nonempty _ _ Hb). exact Hb.
  - apply denotes_toFixed.
  - apply Qtrunc_nonneg.
  - apply Qtrunc_nonpos.
Qed.

Lemma interestEarned_whole_part_witness :
  interestEarned data_then = Ok "199" /\
  interestEarned data_loss = Ok "-500".
Proof.
  split.
  - destruct (interestEarned_whole_part data_then
                (earned "7000" "5000.5" "200" "4000.123") []
                (rateOf "1.5") []
                (earned "1000" "1000" "0" "1000")
                (mkBig 4000123 3) (mkBig 15 1) (mkBig 1000 0)
                (mkBig 200 0) (mkBig 50005 1)) as [H _].
    + reflexivity.
    + reflexivity.
    + left. exists []. reflexivity.
    + reflexivity.
    + reflexivity.
    + reflexivity.
    + reflexivity.
    + reflexivity.
    + exact H.
  - destruct (interestEarned_whole_part data_loss
                (earned "1500" "0" "0" "1000") []
                (rateOf "1.5") []
                (earned "2000.5" "0" "0" "1300")
                (mkBig 1000 0) (mkBig 15 1) (mkBig 20005 1)
                (mkBig 0 0) (mkBig 0 0)) as [H _].
    + reflexivity.
    + reflexivity.
    + left. exists []. reflexivity.
    + reflexivity.
    + reflexivity.
    + reflexivity.
    + reflexivity.
    + reflexivity.
    + exact H.
Defined.

(** C4 as stated fails for a negative value with a fraction.  In
    [data_loss] every string is a well-formed decimal and the value is
    [1000 * 1.5 - 2000.5 + 0 - 0 = -500.5], whose floor is [-501]; the
    function returns ["-500"]. *)
Lemma interestEarned_not_floor_of_loss :
  parse "1000" = Ok (mkBig 1000 0) /\
  parse "1.5" = Ok (mkBig 15 1) /\
  parse "2000.5" = Ok (mkBig 20005 1) /\
  parse "0" = Ok (mkBig 0 0) /\
  toQ (mkBig 1000 0) * toQ (mkBig 15 1) - toQ (mkBig 20005 1)
    + toQ (mkBig 0 0) - toQ (mkBig 0 0) == - (1001 # 2) /\
  Qfloor (toQ (mkBig 1000 0) * toQ (mkBig 15 1) - toQ (mkBig 20005 1)
          + toQ (mkBig 0 0) - toQ (mkBig 0 0)) = (-501)%Z /\
  toFixed (mkBig (-501) 0) = "-501" /\
  interestEarned data_loss = Ok "-500" /\
  interestEarned data_loss <> Ok (toFixed (mkBig (-501) 0)).
Proof.
  repeat split; try reflexivity. discriminate.
Qed.

(** C9, as amended.  When the balance of the first [now] record is the
    empty string it counts as 0: with an exchange rate and the other
    numeric strings accepted by big.js, the result is the decimal string
    of the integer part of
    [x = 0 - then'.CurrentDeposit + TotalWithdraw - TotalDeposit], which
    is [floor(x)] when [x] is not negative and the ceiling of [x] when it
    is not positive. *)
Theorem interestEarned_empty_balance (data : RawData)
    (referenceNow : Earned) (rest : list Earned)
    (rate : ExchangeRateRecord) (rates : list ExchangeRateRecord)
    (referenceThen : Earned) (er cd tw td : Big) :
  now data = Some (referenceNow :: rest) ->
  latestExchangeRate data = rate :: rates ->
  isThenOrFallback data referenceThen ->
  CurrentAnchorBalance referenceNow = "" ->
  parse (ExchangeRate rate) = Ok er ->
  parse (CurrentDeposit referenceThen) = Ok cd ->
  parse (TotalWithdraw referenceNow) = Ok tw ->
  parse (TotalDeposit referenceNow) = Ok td ->
  let x := 0 - toQ cd + toQ tw - toQ td in
  let v := BigMath.Qtrunc x in
  interestEarned data = Ok (toFixed (mkBig v 0)) /\
  denotes (toFixed (mkBig v 0)) (inject_Z v) /\
  (0 <= x -> v = Qfloor x) /\
  (x <= 0 -> v = Qceiling x).
Proof.
  intros Hn Hl Ht Hb Hr Hcd Htw Htd x v. split; [|split; [|split]].
  - rewrite (interestEarned_reaches_try data _ _ _ _ (mkBig 0 0) er Hn Hl);
      [| rewrite Hb; reflexivity | exact Hr].
    rewrite (referenceThenOf_spec _ _ Ht).
    rewrite (floorOfInterest_value _ _ _ _ _ _ Hcd Htw Htd).
    cbn [try_catch]. do 3 f_equal. apply Qtrunc_comp.
    rewrite toQ_Bmul.
    assert (Z0 : toQ (mkBig 0 0) == 0) by reflexivity.
    rewrite Z0, Qmult_0_l. reflexivity.
  - apply denotes_toFixed.
  - apply Qtrunc_nonneg.
  - apply Qtrunc_nonpos.
Qed.

Lemma interestEarned_empty_balance_witness :
  interestEarned data_empty_balance = Ok "-5800".
Proof.
  destruct (interestEarned_empty_balance data_empty_balance
              (earned "7000" "5000.5" "200" "") []
              (rateOf "1.5") []
              (earned "1000" "1000" "0" "1000")
              (mkBig 15 1) (mkBig 1000 0) (mkBig 200 0) (mkBig 50005 1))
    as [H _].
  - reflexivity.
  - reflexivity.
  - right. split; [left; reflexivity | exists []; reflexivity].
  - reflexivity.
  - reflexivity.
  - reflexivity.
  - reflexivity.
  - reflexivity.
  - exact H.
Defined.

(** C9 as stated fails in two ways.  In [data_empty_balance] the value is
    [0 - 1000 + 200 - 5000.5 = -5800.5], whose floor is [-5801], and the
    function returns ["-5800"].  And with an exchange rate that big.js
    rejects the product [0 * rate] throws before the [try], although the
    balance counts as 0: the call throws and returns nothing. *)
Lemma empty_balance_not_floor_or_throws :
  CurrentAnchorBalance (earned "7000" "5000.5" "200" "") = "" /\
  Qfloor (0 - toQ (mkBig 1000 0) + toQ (mkBig 200 0) - toQ (mkBig 50005 1))
    = (-5801)%Z /\
  toFixed (mkBig (-5801) 0) = "-5801" /\
  interestEarned data_empty_balance = Ok "-5800" /\
  interestEarned data_empty_balance <> Ok (toFixed (mkBig (-5801) 0)) /\
  interestEarned data_empty_balance_bad_rate = Throw InvalidNumber.
Proof.
  repeat split; try reflexivity. discriminate.
Qed.

(** C8.  When [now] is undefined or empty the result is ["0"], whatever
    the other fields hold; and when the function has arrived at its [try]
    and the expression in it throws, the result is ["0"] as well. *)
Theorem interestEarned_zero_default :
  (forall data : RawData,
     now data = None \/ now data = Some [] ->
     interestEarned data = Ok "0") /\
  (forall (data : RawData) referenceNow rest rate rates b er e,
     now data = Some (referenceNow :: rest) ->
     latestExchangeRate data = rate :: rates ->
     parse (if (0 <? String.length (CurrentAnchorBalance referenceNow))%nat
            then CurrentAnchorBalance referenceNow else "0") = Ok b ->
     parse (ExchangeRate rate) = Ok er ->
     floorOfInterest (Bmul b er) (referenceThenOf data) referenceNow = Throw e ->
     interestEarned data = Ok "0").
Proof.
  split.
  - intros data [H|H]; unfold interestEarned; rewrite H; reflexivity.
  - intros data referenceNow rest rate rates b er e Hn Hl Hb Hr Hthrow.
    rewrite (interestEarned_reaches_try data _ _ _ _ b er Hn Hl Hb Hr).
    rewrite Hthrow. reflexivity.
Qed.

Lemma interestEarned_zero_default_witness :
  interestEarned mockupData = Ok "0" /\
  interestEarned data_no_reference = Ok "0".
Proof.
  destruct interestEarned_zero_default as [H1 H2]. split.
  - apply H1. right. reflexivity.
  - apply (H2 data_no_reference
              (earned "7000" "5000.5" "200" "4000.123") []
              (rateOf "1.5") [] (mkBig 4000123 3) (mkBig 15 1) TypeError);
      reflexivity.
Defined.

End EarnClaims.

(* ================================================================= *)
(** * The claims about [sellFromSimulation] *)
(* ================================================================= *)

Section SellFacts.

Import BigJs SellFromSimulation.

Lemma coef_zero_toQ b : coef b = 0%Z -> toQ b == 0.
Proof. intros H. unfold toQ, Qeq. rewrite H. reflexivity. Qed.

Lemma toQ_one : toQ (mkBig 1 0) == 1.
Proof. reflexivity. Qed.

(** The local [tax]. *)
Lemma taxOf_value amount t (a tr mt : Big) :
  parse amount = Ok a ->
  parse (taxRate t) = Ok tr ->
  parse (maxTaxUUSD t) = Ok mt ->
  ~ 1 + toQ tr == 0 ->
  exists tax,
    taxOf amount t = Ok tax /\
    toQ tax ==
      Qmin (toQ a - roundHalfUp DP (toQ a / (1 + toQ tr))) (toQ mt).
Proof.
  intros Ha Htr Hmt Hnz. unfold taxOf, plus, minus, div.
  cbn [big]. rewrite Ha. cbn [bind].
  change (parse "1") with (Ok (mkBig 1 0)). cbn [bind].
  rewrite Htr. cbn [bind].
  assert (Hd : coef (Badd (mkBig 1 0) tr) <> 0%Z).
  { intros E. apply coef_zero_toQ in E. rewrite toQ_Badd, toQ_one in E.
    exact (Hnz E). }
  destruct (toQ_Bdiv a _ Hd) as [q [Hq Vq]]. rewrite Hq. cbn [bind].
  unfold BigMath.min. cbn [big bind]. rewrite Hmt. cbn [bind].
  pose proof (toQ_min (Bsub a q) mt) as [m [Hm Vm]].
  unfold BigMath.min in Hm. cbn [big bind] in Hm.
  exists m. split; [exact Hm|].
  rewrite Vm. apply Q.min_compat; [|reflexivity].
  rewrite toQ_Bsub, Vq.
  rewrite (roundHalfUp_comp DP _ (toQ a / (1 + toQ tr))); [reflexivity|].
  rewrite toQ_Badd, toQ_one. reflexivity.
Qed.

End SellFacts.

Section SellClaims.

Import BigJs SellFromSimulation.

(** C5, as amended.  With inputs that big.js accepts, [return_amount]
    non-zero and [1 + taxRate] non-zero, [sellFromSimulation] returns a
    record in which, for
    [tax = min(amount - amount / (1 + taxRate), maxTaxUUSD)],
    [minimumReceived = (return_amount - tax) * (1 - 0.1)],
    [swapFee = commission_amount + spread_amount],
    [txFee = tax + fixedGas], [maxSpread = 0.1] and
    [beliefPrice = amount / return_amount], where sums, differences and
    products are exact and each of the two quotients is the exact quotient
    rounded half up to 20 decimal places. *)
Theorem sellFromSimulation_fields (simulation : SimulationResponse)
    (amount : string) (t : TaxData) (fixedGas : BigSource)
    (a ra sa ca tr mt fg : Big) :
  parse amount = Ok a ->
  parse (return_amount simulation) = Ok ra ->
  parse (spread_amount simulation) = Ok sa ->
  parse (commission_amount simulation) = Ok ca ->
  parse (taxRate t) = Ok tr ->
  parse (maxTaxUUSD t) = Ok mt ->
  big fixedGas = Ok fg ->
  ~ toQ ra == 0 ->
  ~ 1 + toQ tr == 0 ->
  let tax := Qmin (toQ a - roundHalfUp DP (toQ a / (1 + toQ tr))) (toQ mt) in
  exists r,
    sellFromSimulation simulation amount t fixedGas = Ok r /\
    denotes (minimumReceived r) ((toQ ra - tax) * (1 - (1 # 10))) /\
    denotes (swapFee r) (toQ ca + toQ sa) /\
    denotes (txFee r) (tax + toQ fg) /\
    maxSpread r = "0.1" /\
    denotes (beliefPrice r) (roundHalfUp DP (toQ a / toQ ra)).
Proof.
  intros Ha Hra Hsa Hca Htr Hmt Hfg Hnz Htz tax.
  assert (Hd : coef ra <> 0%Z).
  { intros E. apply Hnz. now apply coef_zero_toQ. }
  destruct (toQ_Bdiv a ra Hd) as [bp [Hbp Vbp]].
  destruct (taxOf_value amount t a tr mt Ha Htr Hmt Htz) as [tx [Htx Vtx]].
  fold tax in Vtx.
  unfold sellFromSimulation, plus, minus, mul, div.
  cbn [big]. rewrite Ha. cbn [bind]. rewrite Hra. cbn [bind].
  rewrite Hbp. cbn [bind]. rewrite Htx. cbn [bind].
  change (parse "1") with (Ok (mkBig 1 0)).
  change (parse "0.1") with (Ok (mkBig 1 1)). cbn [bind].
  rewrite Hca. cbn [bind]. rewrite Hsa. cbn [bind].
  rewrite Hfg. cbn [bind].
  eexists. split; [reflexivity|].
  cbn [minimumReceived swapFee txFee maxSpread beliefPrice].
  split; [|split; [|split; [|split]]].
  - eapply denotes_comp; [apply denotes_toFixed|].
    rewrite toQ_Bmul, !toQ_Bsub, Vtx. reflexivity.
  - eapply denotes_comp; [apply denotes_toFixed|].
    rewrite toQ_Badd. reflexivity.
  - eapply denotes_comp; [apply denotes_toFixed|].
    rewrite toQ_Badd, Vtx. reflexivity.
  - reflexivity.
  - eapply denotes_comp; [apply denotes_toFixed|]. exact Vbp.
Qed.

Lemma sellFromSimulation_fields_witness :
  exists r,
    sellFromSimulation sim_3m "1000000" tax_05 (SrcString "250000") = Ok r /\
    minimumReceived r = "2695522.388059701492537313431" /\
    swapFee r = "9012" /\
    txFee r = "254975.12437810945273631841" /\
    beliefPrice r = "0.33333333333333333333".
Proof.
  destruct (sellFromSimulation_fields sim_3m "1000000" tax_05
              (SrcString "250000")
              (mkBig 1000000 0) (mkBig 3000000 0) (mkBig 12 0)
              (mkBig 9000 0) (mkBig 5 3) (mkBig 3500000 0) (mkBig 250000 0))
    as [r [Hr _]].
  - reflexivity.
  - reflexivity.
  - reflexivity.
  - reflexivity.
  - reflexivity.
  - reflexivity.
  - reflexivity.
  - intros H. vm_compute in H. discriminate H.
  - intros H. vm_compute in H. discriminate H.
  - exists r. split; [exact Hr|].
    vm_compute in Hr. injection Hr as <-. repeat split.
Defined.

(** C5 as stated fails where a quotient has no finite decimal expansion:
    for [amount = 1] and [return_amount = 3] the quotient is one third,
    and [beliefPrice] is that rounded to 20 places, which is a different
    number. *)
Lemma sellFromSimulation_quotient_rounded :
  parse "1" = Ok (mkBig 1 0) /\
  parse (return_amount sim_3) = Ok (mkBig 3 0) /\
  toQ (mkBig 1 0) / toQ (mkBig 3 0) == 1 # 3 /\
  exists r,
    sellFromSimulation sim_3 "1" tax_0 (SrcString "0") = Ok r /\
    beliefPrice r = "0.33333333333333333333" /\
    ~ denotes (beliefPrice r) (1 # 3).
Proof.
  split; [reflexivity|]. split; [reflexivity|]. split; [reflexivity|].
  eexists. split; [vm_compute; reflexivity|].
  split; [reflexivity|].
  intros [b [_ Hq]]. exact (no_Big_is_one_third b Hq).
Qed.

End SellClaims.

(* ================================================================= *)
(** * The two transforms and the state outside their arguments *)
(* ================================================================= *)

Section Purity.

Import BigJs InterestEarned SellFromSimulation.

(** In every branch of a run, the result so far is taken apart. *)
Ltac run_step :=
  match goal with
  | |- context [match ?r with Ok _ => _ | Throw _ => _ end] =>
      lazymatch r with
      | context [match _ with Ok _ => _ | Throw _ => _ end] => fail
      | _ => destruct r
      end
  end.

Ltac run_all := cbv beta iota zeta; repeat (run_step; cbv beta iota zeta).

Ltac unfold_run :=
  unfold Ambient.sellFromSimulation, Ambient.taxOf, Ambient.interestEarned,
    Ambient.floorOfInterest, Ambient.tryCatch, Ambient.bindR, Ambient.ret,
    Ambient.raise, Ambient.big, Ambient.plus, Ambient.minus, Ambient.mul,
    Ambient.div, Ambient.toFixed, Ambient.toString, Ambient.floor,
    Ambient.min, Ambient.prop, Ambient.closed.

(** At the settings big.js starts with, [div] and [toString] are the ones
    of [BigJs]. *)
Lemma BdivWith_defaults x y : Ambient.BdivWith Ambient.defaults x y = Bdiv x y.
Proof. reflexivity. Qed.

Lemma toStringWith_defaults b : Ambient.toStringWith Ambient.defaults b = toString b.
Proof. reflexivity. Qed.

(** The four rounding modes on 5/2, 7/2 and 7/3, and one third at two
    places and at twenty. *)
Example roundQuotient_samples :
  map (fun rm => Ambient.roundQuotient rm 5 2)
      [Ambient.ROUND_DOWN; Ambient.ROUND_HALF_UP;
       Ambient.ROUND_HALF_EVEN; Ambient.ROUND_UP] = [2; 3; 2; 3]%Z /\
  map (fun rm => Ambient.roundQuotient rm 7 2)
      [Ambient.ROUND_DOWN; Ambient.ROUND_HALF_UP;
       Ambient.ROUND_HALF_EVEN; Ambient.ROUND_UP] = [3; 4; 4; 4]%Z /\
  map (fun rm => Ambient.roundQuotient rm 7 3)
      [Ambient.ROUND_DOWN; Ambient.ROUND_HALF_UP;
       Ambient.ROUND_HALF_EVEN; Ambient.ROUND_UP] = [2; 2; 2; 3]%Z /\
  Ambient.BdivWith Ambient.twoPlaces (mkBig 1 0) (mkBig 3 0) = Ok (mkBig 33 2) /\
  Ambient.BdivWith Ambient.defaults (mkBig 1 0) (mkBig 3 0) =
    Ok (mkBig 33333333333333333333 20).
Proof. repeat split. Qed.

Section InWorld.

Variable World : Type.
Variable settings : World -> Ambient.Settings.

(** [interestEarned] in a world is [interestEarned], and the world stays
    as it was. *)
Lemma interestEarned_run data w :
  Ambient.interestEarned World data w = (interestEarned data, w).
Proof.
  unfold interestEarned, floorOfInterest, try_catch, bind.
  unfold_run.
  destruct (now data) as [now'|]; [|reflexivity].
  destruct (List.length now' =? 0)%nat; [reflexivity|].
  destruct (at0 now') as [referenceNow|]; cbn [prop];
    destruct (referenceThenOf data) as [referenceThen|]; cbn [prop];
    run_all; reflexivity.
Qed.

(** [sellFromSimulation] in a world reads the settings and nothing else,
    and the world stays as it was. *)
Lemma sellFromSimulation_run simulation amount t fixedGas w w' :
  settings w = settings w' ->
  Ambient.sellFromSimulation World settings simulation amount t fixedGas w' =
  (fst (Ambient.sellFromSimulation World settings simulation amount t fixedGas w),
   w').
Proof.
  intros E. unfold_run. unfold bind. cbv beta. rewrite <- E.
  run_all; cbn [fst]; rewrite <- ?E; reflexivity.
Qed.

Lemma sellFromSimulation_run_defaults simulation amount t fixedGas w :
  settings w = Ambient.defaults ->
  fst (Ambient.sellFromSimulation World settings simulation amount t fixedGas w)
  = sellFromSimulation simulation amount t fixedGas.
Proof.
  intros E. unfold sellFromSimulation, taxOf, plus, minus, mul, div,
    BigMath.min, bind.
  unfold_run. unfold BigJs.plus, BigJs.minus, BigJs.mul, BigMath.min, bind.
  cbv beta. rewrite E.
  change (Ambient.BdivWith Ambient.defaults) with Bdiv.
  run_all; cbn [fst]; rewrite ?E; reflexivity.
Qed.

End InWorld.

(** C6, as amended.  [dataMap.interestEarned] is pure: in whatever state
    it is called, it returns what the function of its argument returns
    and leaves the state as it was.  [sellFromSimulation] leaves the state
    as it was too, but its result depends on the settings of big.js in
    that state, [Big.DP] and [Big.RM], which [div] reads, and [Big.NE] and
    [Big.PE], which [toString] reads: two calls on equal arguments return
    equal records when these settings are the same, and at the settings
    big.js starts with they return the record of the function of the
    arguments. *)
Theorem transforms_outside_state (World : Type)
    (settings : World -> Ambient.Settings) :
  (forall data w w',
     snd (Ambient.interestEarned World data w) = w /\
     fst (Ambient.interestEarned World data w) =
     fst (Ambient.interestEarned World data w') /\
     fst (Ambient.interestEarned World data w) = interestEarned data) /\
  (forall simulation amount t fixedGas w,
     snd (Ambient.sellFromSimulation World settings simulation amount t fixedGas w)
     = w) /\
  (forall simulation amount t fixedGas w w',
     settings w = settings w' ->
     fst (Ambient.sellFromSimulation World settings simulation amount t fixedGas w)
     = fst (Ambient.sellFromSimulation World settings simulation amount t fixedGas w')) /\
  (forall simulation amount t fixedGas w,
     settings w = Ambient.defaults ->
     fst (Ambient.sellFromSimulation World settings simulation amount t fixedGas w)
     = sellFromSimulation simulation amount t fixedGas).
Proof.
  split; [|split; [|split]].
  - intros data w w'. rewrite !interestEarned_run. repeat split.
  - intros simulation amount t fixedGas w.
    rewrite (sellFromSimulation_run World settings simulation amount t fixedGas w w
               eq_refl) at 1.
    reflexivity.
  - intros simulation amount t fixedGas w w' E.
    rewrite (sellFromSimulation_run World settings simulation amount t fixedGas w w' E).
    reflexivity.
  - intros simulation amount t fixedGas w E.
    now apply sellFromSimulation_run_defaults.
Qed.

Lemma transforms_outside_state_witness :
  Ambient.interestEarned Ambient.Settings data_then Ambient.twoPlaces
    = (Ok "199", Ambient.twoPlaces) /\
  snd (Ambient.sellFromSimulation Ambient.Settings (fun s => s)
         sim_3m "1000000" tax_05 (SrcString "250000") Ambient.twoPlaces)
    = Ambient.twoPlaces /\
  fst (Ambient.sellFromSimulation Ambient.Settings (fun s => s)
         sim_3m "1000000" tax_05 (SrcString "250000") Ambient.defaults)
    = sellFromSimulation sim_3m "1000000" tax_05 (SrcString "250000").
Proof.
  destruct (transforms_outside_state Ambient.Settings (fun s => s))
    as [H1 [H2 [_ H4]]].
  split; [|split].
  - destruct (H1 data_then Ambient.twoPlaces Ambient.twoPlaces) as [Hs [_ Hf]].
    rewrite (surjective_pairing
               (Ambient.interestEarned Ambient.Settings
                  data_then Ambient.twoPlaces)).
    rewrite Hs, Hf. reflexivity.
  - apply H2.
  - apply H4. reflexivity.
Defined.

(** C6 as stated fails for [sellFromSimulation]: its result depends on
    state outside its arguments.  With [Big.DP] at 20 and at 2, the
    settings otherwise the same, two calls on the same arguments return
    records that differ in [beliefPrice]. *)
Lemma sellFromSimulation_depends_on_settings :
  exists r r',
    fst (Ambient.sellFromSimulation Ambient.Settings (fun s => s)
           sim_3 "1" tax_0 (SrcString "0") Ambient.defaults) = Ok r /\
    fst (Ambient.sellFromSimulation Ambient.Settings (fun s => s)
           sim_3 "1" tax_0 (SrcString "0") Ambient.twoPlaces) = Ok r' /\
    beliefPrice r = "0.33333333333333333333" /\
    beliefPrice r' = "0.33" /\
    r <> r'.
Proof.
  eexists. eexists.
  split; [vm_compute; reflexivity|].
  split; [vm_compute; reflexivity|].
  split; [reflexivity|]. split; [reflexivity|]. discriminate.
Qed.

(** The rounding mode is read as well: two thirds at the default settings
    and with [Big.RM] at 0. *)
Example sellFromSimulation_depends_on_rounding :
  exists r r',
    fst (Ambient.sellFromSimulation Ambient.Settings (fun s => s)
           sim_3 "2" tax_0 (SrcString "0") Ambient.defaults) = Ok r /\
    fst (Ambient.sellFromSimulation Ambient.Settings (fun s => s)
           sim_3 "2" tax_0 (SrcString "0") Ambient.roundingDown) = Ok r' /\
    beliefPrice r = "0.66666666666666666667" /\
    beliefPrice r' = "0.66666666666666666666".
Proof.
  eexists. eexists.
  split; [vm_compute; reflexivity|].
  split; [vm_compute; reflexivity|].
  split; reflexivity.
Qed.

End Purity.

(* ================================================================= *)
(** * The claims about [getDates] and [mapVariables] *)
(* ================================================================= *)

Section DatesClaims.

Import Dates.

Open Scope Z_scope.





End DatesClaims.

(* ================================================================= *)
(** * Further properties of [fetchClient] *)
(* ================================================================= *)

Section PollingOutcomes.

Import TxPolling TraceMeasures.

Variable w : World.
Variable txResult : TxResult.

Let hash := txhash (result txResult).

(** A run of the loop that has ended did so at an iteration that every
    earlier one led to, on an abort or on a non-empty answer. *)
Lemma poll_outcome_inv : forall fuel i o,
  snd (poll w txResult fuel i) = Some o ->
  exists k, (k < fuel)%nat /\
    (forall j, (j < k)%nat ->
       aborted w (i + j) = false /\ indexer w (i + j) hash = []) /\
    ((aborted w (i + k) = true /\ o = Throw stopSignal) \/
     (aborted w (i + k) = false /\ indexer w (i + k) hash <> [] /\
      o = verdict txResult (indexer w (i + k) hash))).
Proof.
  induction fuel as [|fuel IH]; intros i o H; [discriminate|].
  destruct (aborted w i) eqn:Ha.
  - rewrite (poll_aborted w txResult fuel i Ha) in H. injection H as <-.
    exists 0%nat. rewrite Nat.add_0_r. split; [lia|]. split; [intros j Hj; lia|].
    left. auto.
  - destruct (indexer w i hash) as [|t ts] eqn:He.
    + rewrite (poll_empty w txResult fuel i Ha He) in H. cbn [snd] in H.
      destruct (IH _ _ H) as [k [Hk [Hbefore Hat]]].
      exists (S k). split; [lia|]. split.
      * intros j Hj. destruct j as [|j].
        -- rewrite Nat.add_0_r. auto.
        -- replace (i + S j)%nat with (S i + j)%nat by lia. apply Hbefore. lia.
      * replace (i + S k)%nat with (S i + k)%nat by lia. exact Hat.
    + assert (Hne : indexer w i hash <> []) by (rewrite He; discriminate).
      rewrite (poll_found w txResult fuel i Ha Hne) in H. injection H as <-.
      exists 0%nat. rewrite Nat.add_0_r. split; [lia|]. split; [intros j Hj; lia|].
      right. auto.
Qed.

Lemma fetchClient_outcome_inv fuel o :
  snd (fetchClient w txResult fuel) = Some o ->
  (success txResult = false /\ o = Throw (TxError (msgs txResult))) \/
  (success txResult = true /\
   exists k, (k < fuel)%nat /\ reaches w hash k /\
     ((aborted w k = true /\ o = Throw stopSignal) \/
      (aborted w k = false /\ indexer w k hash <> [] /\
       o = verdict txResult (indexer w k hash)))).
Proof.
  unfold fetchClient. destruct (success txResult); cbn [negb].
  - intros H. right. split; [reflexivity|].
    assert (H' : snd (poll w txResult fuel 0) = Some o)
      by (destruct (poll w txResult fuel 0); exact H).
    destruct (poll_outcome_inv _ _ _ H') as [k [Hk [Hb Hat]]].
    exists k. split; [exact Hk|]. split; [exact Hb|exact Hat].
  - intros [= <-]. left. auto.
Qed.

Lemma verdict_cases txInfos :
  (forallb Success txInfos = true /\
   verdict txResult txInfos = Return txResult txInfos) \/
  (exists fail, In fail txInfos /\ Success fail = false /\
     verdict txResult txInfos = Throw (Error (RawLog fail))).
Proof.
  destruct (forallb Success txInfos) eqn:E.
  - left. split; [reflexivity|]. now apply verdict_all_ok.
  - right. destruct (verdict_some_failed txResult txInfos E)
      as [pre [fail [post [-> [_ [Hf Hv]]]]]].
    exists fail. split; [|split; assumption].
    apply in_or_app. right. left. reflexivity.
Qed.

(** The counts of a loop trace. *)
Lemma poll_counts : forall fuel i,
  let tr := fst (poll w txResult fuel i) in
  let out := snd (poll w txResult fuel i) in
  sleepTime tr = (500 * Z.of_nat (sleeps tr))%Z /\
  queries tr = (sleeps tr + (if isAnswer out then 1 else 0))%nat.
Proof.
  induction fuel as [|fuel IH]; intros i; [split; reflexivity|].
  cbv zeta. rewrite poll_step.
  destruct (aborted w i); [split; reflexivity|]. cbv zeta.
  destruct (0 <? List.length (indexer w i (txhash (result txResult))))%nat.
  - destruct (find _ _); split; reflexivity.
  - specialize (IH (S i)). cbv zeta in IH.
    destruct (poll w txResult fuel (S i)) as [tr out]. cbn [fst snd] in *.
    destruct IH as [IH1 IH2]. unfold sleeps, queries in *.
    cbn [sleepTime filter isSleep isQuery List.length]. split; lia.
Qed.

Lemma PollTrace_events tr :
  PollTrace hash tr ->
  forall e, In e tr -> e = queryTxInfo hash \/ e = sleep 500.
Proof.
  induction 1 as [| |tr Htr IH]; intros e Hin; simpl in Hin.
  - contradiction.
  - destruct Hin as [<-|[]]. now left.
  - destruct Hin as [<-|[<-|Hin]]; auto.
Qed.

End PollingOutcomes.

Section PollingExtras.

Import TxPolling TraceMeasures.

(** X1.  Whatever the indexer and the signal do, when [fetchClient]
    returns, it returns the posted [txResult] itself, which had
    [success = true], together with a non-empty list in which every record
    has [Success = true], and that list is the answer to the first query
    that was not empty. *)
Theorem fetchClient_return_sound (w : World) (txResult : TxResult) (fuel : nat)
    (r : TxResult) (txInfos : list TxInfo) :
  snd (fetchClient w txResult fuel) = Some (Return r txInfos) ->
  r = txResult /\ success txResult = true /\
  txInfos <> [] /\ forallb Success txInfos = true /\
  exists k, (k < fuel)%nat /\ reaches w (txhash (result txResult)) k /\
    aborted w k = false /\
    txInfos = indexer w k (txhash (result txResult)).
Proof.
  intros H.
  destruct (fetchClient_outcome_inv w txResult fuel _ H)
    as [[_ Ho] | [Hs [k [Hk [Hr [[_ Ho] | [Ha [Hne Ho]]]]]]]]; try discriminate.
  destruct (verdict_cases txResult (indexer w k (txhash (result txResult))))
    as [[Hall Hv] | [fail [_ [_ Hv]]]]; rewrite Hv in Ho; [|discriminate].
  injection Ho as -> ->.
  repeat split; try assumption. exists k. auto.
Qed.

Lemma fetchClient_return_sound_witness :
  forallb Success [info_ok] = true /\
  exists k, (k < 5)%nat /\ indexer (w_third [info_ok]) k "A1B2" = [info_ok].
Proof.
  destruct (fetchClient_return_sound (w_third [info_ok]) tx_ok 5 tx_ok [info_ok])
    as [_ [_ [_ [Hall [k [Hk [_ [_ Hi]]]]]]]].
  - reflexivity.
  - split; [exact Hall|]. exists k. split; [exact Hk|]. symmetry. exact Hi.
Defined.

(** X2.  When [fetchClient] throws an [Error], its message is the
    [RawLog] of a record with [Success = false] in the answer to the first
    query that was not empty; the post had succeeded and no abort was seen
    up to then. *)
Theorem fetchClient_error_origin (w : World) (txResult : TxResult) (fuel : nat)
    (message : string) :
  snd (fetchClient w txResult fuel) = Some (Throw (Error message)) ->
  success txResult = true /\
  exists k fail, (k < fuel)%nat /\
    reaches w (txhash (result txResult)) k /\ aborted w k = false /\
    In fail (indexer w k (txhash (result txResult))) /\
    Success fail = false /\ message = RawLog fail.
Proof.
  intros H.
  destruct (fetchClient_outcome_inv w txResult fuel _ H)
    as [[_ Ho] | [Hs [k [Hk [Hr [[_ Ho] | [Ha [Hne Ho]]]]]]]]; try discriminate.
  split; [exact Hs|].
  destruct (verdict_cases txResult (indexer w k (txhash (result txResult))))
    as [[Hall Hv] | [fail [Hin [Hf Hv]]]]; rewrite Hv in Ho; [discriminate|].
  injection Ho as ->. exists k, fail. auto 7.
Qed.

Lemma fetchClient_error_origin_witness :
  exists k fail, (k < 4)%nat /\
    In fail (indexer w_fails_second k "A1B2") /\
    Success fail = false /\ "insufficient funds" = RawLog fail.
Proof.
  destruct (fetchClient_error_origin w_fails_second tx_ok 4 "insufficient funds")
    as [_ [k [fail [Hk [_ [_ [Hin [Hf Hm]]]]]]]].
  - reflexivity.
  - exists k, fail. auto.
Defined.

(** X3.  [fetchClient] throws [stopSignal] only when the signal was seen
    aborted at the top of an iteration that the loop did reach: every
    earlier iteration saw it not aborted and an empty answer. *)
Theorem fetchClient_stop_origin (w : World) (txResult : TxResult) (fuel : nat) :
  snd (fetchClient w txResult fuel) = Some (Throw stopSignal) ->
  success txResult = true /\
  exists k, (k < fuel)%nat /\
    reaches w (txhash (result txResult)) k /\ aborted w k = true.
Proof.
  intros H.
  destruct (fetchClient_outcome_inv w txResult fuel _ H)
    as [[_ Ho] | [Hs [k [Hk [Hr [[Ha _] | [Ha [Hne Ho]]]]]]]]; try discriminate.
  - split; [exact Hs|]. exists k. auto.
  - exfalso.
    destruct (verdict_cases txResult (indexer w k (txhash (result txResult))))
      as [[_ Hv] | [fail [_ [_ Hv]]]]; rewrite Hv in Ho; discriminate.
Qed.

Lemma fetchClient_stop_origin_witness :
  exists k, (k < 9)%nat /\ aborted w_abort_third k = true.
Proof.
  destruct (fetchClient_stop_origin w_abort_third tx_ok 9)
    as [_ [k [Hk [_ Ha]]]].
  - reflexivity.
  - exists k. auto.
Defined.

(** X4.  After a successful post the function reports progress exactly
    once, first, with the posted [txResult]; every call after that is
    either a query for [txResult.result.txhash] or a sleep of 500 ms: no
    other hash is ever asked for. *)
Theorem fetchClient_calls (w : World) (txResult : TxResult) (fuel : nat) :
  success txResult = true ->
  exists tr,
    fst (fetchClient w txResult fuel) = inProgressUpdate txResult :: tr /\
    forall e, In e tr ->
      e = queryTxInfo (txhash (result txResult)) \/ e = sleep 500.
Proof.
  intros Hs. unfold fetchClient. rewrite Hs. cbn [negb].
  pose proof (poll_trace_shape w txResult fuel 0) as Hsh.
  destruct (poll w txResult fuel 0) as [tr out]. cbn [fst] in *.
  exists tr. split; [reflexivity|]. now apply PollTrace_events.
Qed.

Lemma fetchClient_calls_witness :
  exists tr,
    fst (fetchClient w_fails_second tx_ok 4) = inProgressUpdate tx_ok :: tr /\
    forall e, In e tr -> e = queryTxInfo "A1B2" \/ e = sleep 500.
Proof. exact (fetchClient_calls w_fails_second tx_ok 4 eq_refl). Defined.

(** X5.  After a successful post every sleep is one of 500 ms, so the time
    slept is 500 ms times the number of sleeps; and there is one sleep per
    query, except that the query whose answer ends the run (a return or an
    [Error]) is not followed by one. *)
Theorem fetchClient_sleep_count (w : World) (txResult : TxResult) (fuel : nat) :
  success txResult = true ->
  let tr := fst (fetchClient w txResult fuel) in
  let out := snd (fetchClient w txResult fuel) in
  sleepTime tr = (500 * Z.of_nat (sleeps tr))%Z /\
  queries tr = (sleeps tr + (if isAnswer out then 1 else 0))%nat.
Proof.
  intros Hs. cbv zeta. unfold fetchClient. rewrite Hs. cbn [negb].
  pose proof (poll_counts w txResult fuel 0) as Hc. cbv zeta in Hc.
  destruct (poll w txResult fuel 0) as [tr out]. cbn [fst snd] in *.
  exact Hc.
Qed.

Lemma fetchClient_sleep_count_witness :
  sleepTime (fst (fetchClient (w_third [info_ok]) tx_ok 5)) = 1000%Z /\
  queries (fst (fetchClient (w_third [info_ok]) tx_ok 5)) = 3%nat.
Proof.
  destruct (fetchClient_sleep_count (w_third [info_ok]) tx_ok 5 eq_refl)
    as [H1 H2].
  split; [exact H1|exact H2].
Defined.

End PollingExtras.

(* ================================================================= *)
(** * Reading back what [toString] prints *)
(* ================================================================= *)

Section PrintFacts.

Import BigJs Digits.

(** [Pos.of_uint_acc] and [N.of_uint] read digits from the left. *)
Lemma hvalU_acc d : forall p,
  Npos (Pos.of_uint_acc d p) = hvalU d (Npos p).
Proof.
  induction d; intros p; cbn [Pos.of_uint_acc hvalU]; try reflexivity;
    rewrite IHd; f_equal; lia.
Qed.

Lemma hvalU_of_uint d : N.of_uint d = hvalU d 0.
Proof.
  unfold N.of_uint.
  induction d; cbn [Pos.of_uint hvalU]; try reflexivity;
    try (rewrite hvalU_acc; reflexivity).
  exact IHd.
Qed.

Lemma uint_of_string_app (a b : string) u :
  NilEmpty.uint_of_string (a ++ b) = Some u ->
  exists ua ub,
    NilEmpty.uint_of_string a = Some ua /\
    NilEmpty.uint_of_string b = Some ub /\
    forall acc, hvalU u acc = hvalU ub (hvalU ua acc).
Proof.
  revert u. induction a as [|c a IH]; intros u H; cbn [append] in H.
  - exists Decimal.Nil, u. repeat split. exact H.
  - cbn [NilEmpty.uint_of_string] in H |- *.
    destruct (NilEmpty.uint_of_string (a ++ b)) as [u'|] eqn:E; [|discriminate].
    destruct (IH _ eq_refl) as [ua [ub [Ha [Hb Hv]]]].
    rewrite Ha.
    apply uint_of_char_spec in H.
    destruct H as [[-> ->]|[[-> ->]|[[-> ->]|[[-> ->]|[[-> ->]|
                  [[-> ->]|[[-> ->]|[[-> ->]|[[-> ->]|[-> ->]]]]]]]]]];
      eexists; exists ub; (split; [reflexivity|]); (split; [exact Hb|]);
      intros acc; cbn [hvalU]; apply Hv.
Qed.

Lemma uint_of_zeros_value k :
  exists u, NilEmpty.uint_of_string (zeros k) = Some u /\
            forall acc, hvalU u acc = (acc * Npos (pow10 k))%N.
Proof.
  induction k as [|k [u [Hu Hv]]].
  - exists Decimal.Nil. split; [reflexivity|]. intros acc. cbn. lia.
  - exists (Decimal.D0 u). cbn [zeros NilEmpty.uint_of_string]. rewrite Hu.
    split; [reflexivity|]. intros acc. cbn [hvalU pow10]. rewrite Hv. lia.
Qed.

Lemma dropZeros_spec d : exists k, d = (dropZeros d ++ zeros k)%string.
Proof.
  induction d as [|c s [k IH]]; [exists 0%nat; reflexivity|].
  cbn [dropZeros].
  destruct (dropZeros s) as [|c' r] eqn:E.
  - cbn [append] in IH. destruct (Ascii.eqb_spec c "0") as [->|Hc].
    + exists (S k). cbn [append zeros]. now rewrite <- IH.
    + exists k. cbn [append]. now rewrite <- IH.
  - exists k. cbn [append] in *. now rewrite <- IH.
Qed.

Lemma substring_all s : substring 0 (String.length s) s = s.
Proof. induction s; simpl; congruence. Qed.

Lemma digitsOfN_nonempty n : digitsOfN n <> "".
Proof.
  unfold digitsOfN. destruct n as [|p]; [discriminate|].
  cbn [N.to_uint]. pose proof (DecimalPos.Unsigned.to_uint_nonnil p) as H.
  destruct (Pos.to_uint p); try contradiction; discriminate.
Qed.

Lemma digitsOfN_value n :
  NilEmpty.uint_of_string (digitsOfN n) = Some (N.to_uint n).
Proof. apply NilEmpty.usu. Qed.

Lemma substring_0_0 s : substring 0 0 s = "".
Proof. destruct s; reflexivity. Qed.

(** Reading an exponent that [toString] wrote. *)
Lemma parseExponent_written (e : Z) :
  parseExponent ((if (e <? 0)%Z then "-" else "+") ++
                 digitsOfN (Z.to_N (Z.abs e))) = Ok e.
Proof.
  pose proof (digitsOfN_nonempty (Z.to_N (Z.abs e))) as Hne.
  pose proof (digitsOfN_value (Z.to_N (Z.abs e))) as Hv.
  destruct (digitsOfN (Z.to_N (Z.abs e))) as [|c r]; [contradiction|].
  unfold parseExponent.
  destruct (Z.ltb_spec e 0) as [H|H]; cbn [append].
  - change (Ascii.eqb "-" "-") with true. cbv beta iota zeta.
    rewrite Hv, Unsigned.of_to. f_equal. lia.
  - change (Ascii.eqb "+" "-") with false.
    change (Ascii.eqb "+" "+") with true. cbv beta iota zeta.
    rewrite Hv, Unsigned.of_to. f_equal. lia.
Qed.

(** Reading a mantissa that [toString] wrote: one digit, then the others
    after a point. *)
Lemma parseMantissa_written ch m' u :
  NilEmpty.uint_of_string (String ch m') = Some u ->
  parseMantissa (String ch "" ++
                 match m' with "" => "" | String _ _ => String "." m' end)
  = Ok (mkBig (Z.of_N (N.of_uint u)) (String.length m')).
Proof.
  intros Hu.
  destruct (uint_of_string_app_l (String ch "") m' u Hu) as [ui Hi].
  destruct (splitDot_digits _ _ Hi) as [Hs0 Hs1].
  destruct m' as [|c' r].
  - cbn [append]. unfold parseMantissa. rewrite Hs0.
    cbn [append] in Hu |- *. rewrite Hu. reflexivity.
  - specialize (Hs1 (String c' r)). cbn [append] in Hs1 |- *.
    unfold parseMantissa. rewrite Hs1.
    cbn [append] in Hu |- *. rewrite Hu. reflexivity.
Qed.

Lemma splitExp_written ch m' u rest :
  NilEmpty.uint_of_string (String ch m') = Some u ->
  splitExp ((String ch "" ++
             match m' with "" => "" | String _ _ => String "." m' end) ++
            String "e" rest)
  = ((String ch "" ++
      match m' with "" => "" | String _ _ => String "." m' end)%string,
     Some rest).
Proof.
  intros Hu.
  destruct (uint_of_string_app_l (String ch "") m' u Hu) as [ui Hi].
  destruct (uint_of_string_app_r (String ch "") m' u Hu) as [ur Hr].
  assert (He : splitExp (String "e" rest) = ("", Some rest)) by reflexivity.
  destruct m' as [|c' r].
  - cbn [append]. cbn [append] in Hi.
    pose proof (splitExp_digits _ _ Hi _ _ _ He) as H.
    cbn [append] in H. exact H.
  - pose proof (splitExp_digits _ _ Hr _ _ _ He) as H1.
    rewrite append_empty_r in H1.
    assert (H2 : splitExp (String "." (String c' r ++ String "e" rest))
                 = (String "." (String c' r), Some rest)).
    { cbn [splitExp]. change (isE ".") with false. cbv iota.
      cbn [splitExp] in H1. rewrite H1. reflexivity. }
    pose proof (splitExp_digits _ _ Hi _ _ _ H2) as H3.
    cbn [append] in H3 |- *. exact H3.
Qed.

(** What [toString] prints is read back as the number printed, in plain
    and in exponential notation. *)
Lemma denotes_toString b : denotes (toString b) (toQ b).
Proof.
  unfold toString.
  pose proof (strip_value (scale b) (coef b)) as Hval.
  destruct (strip (coef b) (scale b)) as [c s] eqn:Es. cbn [fst snd] in Hval.
  cbv zeta.
  destruct (Z.eqb_spec c 0) as [Hc0|Hc0].
  { exists (mkBig 0 0). split; [reflexivity|]. rewrite <- Hval, Hc0. reflexivity. }
  remember (digitsOfN (Z.to_N (Z.abs c))) as d eqn:Ed.
  remember (Z.of_nat (String.length d) - 1 - Z.of_nat s)%Z as e eqn:Ee.
  destruct ((e <=? -7) || (21 <=? e))%Z; [|apply denotes_toFixed].
  destruct (dropZeros_spec d) as [k Hk].
  remember (dropZeros d) as m eqn:Em.
  pose proof (digitsOfN_value (Z.to_N (Z.abs c))) as Hd.
  rewrite <- Ed, Hk in Hd.
  destruct (uint_of_string_app _ _ _ Hd) as [um [uz [Hm [Hz Hv]]]].
  destruct (uint_of_zeros_value k) as [uz' [Hz' Hvz]].
  rewrite Hz in Hz'. injection Hz' as <-.
  assert (Hn : Z.abs c = (Z.of_N (N.of_uint um) * Zpos (pow10 k))%Z).
  { pose proof (Unsigned.of_to (Z.to_N (Z.abs c))) as E.
    rewrite hvalU_of_uint, Hv, Hvz, <- hvalU_of_uint in E. lia. }
  destruct m as [|ch m'].
  { exfalso. cbn in Hm. injection Hm as <-. cbn in Hn. lia. }
  assert (Hlen : String.length d = (S (String.length m') + k)%nat).
  { rewrite Hk, length_append, length_zeros. reflexivity. }
  (* the pieces of the mantissa *)
  replace (substring 0 1 (String ch m')) with (String ch "")
    by (cbn [substring]; now rewrite substring_0_0).
  replace (substring 1 (String.length (String ch m') - 1) (String ch m'))
    with m'
    by (change (String.length (String ch m') - 1)%nat
          with (String.length m' - 0)%nat;
        rewrite Nat.sub_0_r; cbn [substring]; now rewrite substring_all).
  set (mant := (String ch "" ++
                match m' with "" => "" | String _ _ => String "." m' end)%string).
  set (expo := ((if (e <? 0)%Z then "-" else "+") ++
                digitsOfN (Z.to_N (Z.abs e)))%string).
  assert (Hun : parseUnsigned (mant ++ String "e" expo)
                = Ok (shift (mkBig (Z.of_N (N.of_uint um)) (String.length m')) e)).
  { unfold parseUnsigned, mant.
    rewrite (splitExp_written ch m' um expo Hm).
    rewrite (parseMantissa_written ch m' um Hm). cbn [bind].
    unfold expo. rewrite parseExponent_written. reflexivity. }
  assert (Hq : toQ (shift (mkBig (Z.of_N (N.of_uint um)) (String.length m')) e)
               == Z.abs c # pow10 s).
  { rewrite Hn. set (vm := Z.of_N (N.of_uint um)).
    destruct (Z.ltb_spec e 0) as [Hneg|Hpos].
    - replace e with (- Z.of_nat (S (s - S (String.length m') - k)))%Z by lia.
      rewrite toQ_shift_down. unfold toQ, Qeq. cbn [coef scale Qnum Qden Qmult].
      assert (E : (Zpos (pow10 s)
                   = Zpos (pow10 k) * (Zpos (pow10 (String.length m')) *
                     Zpos (pow10 (S (s - S (String.length m') - k)))))%Z).
      { rewrite <- !pow10_add. do 2 f_equal. lia. }
      rewrite Pos2Z.inj_mul, E. ring.
    - replace e with (Z.of_nat (String.length m' + k - s)) by lia.
      rewrite toQ_shift_up. unfold toQ, Qeq. cbn [coef scale Qnum Qden Qmult].
      assert (E : (Zpos (pow10 (String.length m' + k - s)) * Zpos (pow10 s)
                   = Zpos (pow10 k) * Zpos (pow10 (String.length m')))%Z).
      { rewrite <- !pow10_add. do 2 f_equal. lia. }
      rewrite Pos2Z.inj_mul. nia. }
  assert (Hs : (String ch "" ++
                match m' with "" => "" | String a s0 => String "." (String a s0) end ++
                "e" ++ expo)%string = (mant ++ String "e" expo)%string).
  { unfold mant. destruct m'; reflexivity. }
  rewrite Hs.
  assert (Hch : Ascii.eqb ch "-" = false).
  { cbn [NilEmpty.uint_of_string] in Hm.
    destruct (NilEmpty.uint_of_string m'); [|discriminate].
    apply (digit_not_special _ _ _ Hm). }
  assert (Hhead : exists rest, (mant ++ String "e" expo)%string = String ch rest).
  { unfold mant. cbn [append]. eauto. }
  destruct Hhead as [rest Hrest].
  destruct (Z.ltb_spec c 0) as [Hneg|Hpos].
  - exists (negate (shift (mkBig (Z.of_N (N.of_uint um)) (String.length m')) e)).
    split.
    + cbn [append parse]. change (Ascii.eqb "-" "-") with true. cbv iota.
      rewrite Hun. reflexivity.
    + rewrite toQ_negate, Hq, <- Hval. unfold Qeq, Qopp. cbn [Qnum Qden].
      f_equal. lia.
  - exists (shift (mkBig (Z.of_N (N.of_uint um)) (String.length m')) e).
    split.
    + cbn [append]. rewrite Hrest in Hun |- *. cbn [parse]. rewrite Hch.
      exact Hun.
    + rewrite Hq, <- Hval. unfold Qeq. cbn [Qnum Qden]. f_equal. lia.
Qed.

End PrintFacts.

(* ================================================================= *)
(** * Further properties of [dataMap.interestEarned] *)
(* ================================================================= *)

Section EarnExtras.

Import BigJs InterestEarned.

Lemma try_catch_default {A : Type} (body : result A) (a : A) :
  exists a', try_catch body (Ok a) = Ok a'.
Proof. destruct body; simpl; eauto. Qed.

Lemma normalize_integer z : normalize (mkBig z 0) = mkBig z 0.
Proof. reflexivity. Qed.

Lemma floorOfInterest_integer ctv referenceThen referenceNow s :
  floorOfInterest ctv referenceThen referenceNow = Ok s ->
  exists z, s = toFixed (mkBig z 0).
Proof.
  unfold floorOfInterest, minus, plus.
  destruct (prop referenceThen CurrentDeposit) as [d|]; [|discriminate].
  cbn [bind big].
  destruct (parse d) as [cd|]; [|discriminate]. cbn [bind].
  destruct (parse (TotalWithdraw referenceNow)) as [tw|]; [|discriminate].
  cbn [bind].
  destruct (parse (TotalDeposit referenceNow)) as [td|]; [|discriminate].
  cbn [bind]. rewrite floor_Qtrunc. cbn [bind]. intros [= <-]. eauto.
Qed.

(** X6.  Whatever the data, a string that [interestEarned] returns is the
    print of a whole number, and big.js reads it back as that number: the
    result never carries a fraction or an exponent. *)
Theorem interestEarned_integer (data : RawData) (s : string) :
  interestEarned data = Ok s ->
  exists z, s = toFixed (mkBig z 0) /\ parse s = Ok (mkBig z 0).
Proof.
  intros H.
  assert (E : exists z, s = toFixed (mkBig z 0)).
  { unfold interestEarned in H.
    destruct (now data) as [now'|]; [|exists 0%Z; now injection H as <-].
    destruct (List.length now' =? 0)%nat; [exists 0%Z; now injection H as <-|].
    destruct (prop (at0 now') CurrentAnchorBalance) as [bal|]; [|discriminate].
    cbn [bind] in H.
    destruct (big _) as [b|]; [|discriminate]. cbn [bind] in H.
    destruct (prop (at0 (latestExchangeRate data)) ExchangeRate) as [r|];
      [|discriminate].
    cbn [bind] in H.
    destruct (mul b r) as [ctv|]; [|discriminate]. cbn [bind] in H.
    destruct (at0 now') as [referenceNow|]; [|discriminate].
    destruct (floorOfInterest ctv (referenceThenOf data) referenceNow) as [s'|] eqn:F;
      cbn [try_catch] in H; injection H as <-.
    - exact (floorOfInterest_integer _ _ _ _ F).
    - exists 0%Z. reflexivity. }
  destruct E as [z ->]. exists z. split; [reflexivity|].
  rewrite parse_toFixed. apply f_equal, normalize_integer.
Qed.

Lemma interestEarned_integer_witness :
  exists z, "199" = toFixed (mkBig z 0) /\ parse "199" = Ok (mkBig z 0).
Proof.
  apply (interestEarned_integer data_then "199"). reflexivity.
Defined.

(** The argument of the first [big(...)]: an empty balance is read as 0. *)
Lemma balance_big (balance : string) :
  let arg := SrcString (if (0 <? String.length balance)%nat
                        then balance else "0") in
  (balance = "" /\ big arg = Ok (mkBig 0 0)) \/
  (balance <> "" /\ big arg = parse balance).
Proof.
  destruct balance as [|c s]; [left|right]; split;
    try reflexivity; discriminate.
Qed.

(** Past the balance, only the exchange rate can make the function throw. *)
Lemma rate_throws (data : RawData) (referenceNow : Earned) (b : Big) e :
  (rate <- prop (at0 (latestExchangeRate data)) ExchangeRate ;;
   currentTokenValue <- mul b rate ;;
   try_catch
     (floorOfInterest currentTokenValue (referenceThenOf data) referenceNow)
     (Ok "0")) = Throw e ->
  (latestExchangeRate data = [] /\ e = TypeError) \/
  (exists rate rates,
     latestExchangeRate data = rate :: rates /\
     parse (ExchangeRate rate) = Throw e).
Proof.
  destruct (latestExchangeRate data) as [|rate rates];
    cbn [at0 nth_error prop bind].
  - intros [= <-]. left. auto.
  - unfold mul. cbn [big].
    destruct (parse (ExchangeRate rate)) as [er|ee] eqn:Hr; cbn [bind].
    + intros H.
      destruct (try_catch_default
                  (floorOfInterest (Bmul b er) (referenceThenOf data) referenceNow)
                  "0") as [a' Ha'].
      rewrite Ha' in H. discriminate.
    + intros [= <-]. right. eauto.
Qed.

Lemma rate_throws_back (data : RawData) (referenceNow : Earned) (b : Big) e :
  (latestExchangeRate data = [] /\ e = TypeError) \/
  (exists rate rates,
     latestExchangeRate data = rate :: rates /\
     parse (ExchangeRate rate) = Throw e) ->
  (rate <- prop (at0 (latestExchangeRate data)) ExchangeRate ;;
   currentTokenValue <- mul b rate ;;
   try_catch
     (floorOfInterest currentTokenValue (referenceThenOf data) referenceNow)
     (Ok "0")) = Throw e.
Proof.
  intros [[-> ->] | [rate [rates [-> Hp]]]];
    cbn [at0 nth_error prop bind]; [reflexivity|].
  unfold mul. cbn [big]. rewrite Hp. reflexivity.
Qed.

(** X7.  [interestEarned] throws in three cases only, all of them ahead
    of the [try]: the balance of [now[0]] is a non-empty string that big.js
    rejects; or there is no exchange rate record ([TypeError]); or the
    exchange rate is a string that big.js rejects.  Nothing that goes wrong
    with [then], [fallback] or the totals makes it throw. *)
Theorem interestEarned_throws_iff (data : RawData) (e : JsError) :
  interestEarned data = Throw e <->
  exists referenceNow rest,
    now data = Some (referenceNow :: rest) /\
    let balance := CurrentAnchorBalance referenceNow in
    ((balance <> "" /\ parse balance = Throw e) \/
     ((balance = "" \/ exists b, parse balance = Ok b) /\
      ((latestExchangeRate data = [] /\ e = TypeError) \/
       (exists rate rates,
          latestExchangeRate data = rate :: rates /\
          parse (ExchangeRate rate) = Throw e)))).
Proof.
  split.
  - (* it throws: one of the three cases holds *)
    intros H. unfold interestEarned in H.
    destruct (now data) as [[|referenceNow rest]|]; try discriminate.
    exists referenceNow, rest. split; [reflexivity|]. cbv zeta.
    cbn [List.length Nat.eqb at0 nth_error prop bind] in H.
    destruct (balance_big (CurrentAnchorBalance referenceNow))
      as [[Hempty Hb] | [Hne Hb]]; rewrite Hb in H.
    + right. split; [left; exact Hempty|]. cbn [bind] in H.
      exact (rate_throws _ _ _ _ H).
    + destruct (parse (CurrentAnchorBalance referenceNow)) as [b|eb] eqn:Hp;
        cbn [bind] in H.
      * right. split; [right; eauto|]. exact (rate_throws _ _ _ _ H).
      * left. split; [exact Hne|]. congruence.
  - (* one of the three cases holds: it throws *)
    intros [referenceNow [rest [Hn H]]]. cbv zeta in H.
    unfold interestEarned. rewrite Hn.
    cbn [List.length Nat.eqb at0 nth_error prop bind].
    destruct (balance_big (CurrentAnchorBalance referenceNow))
      as [[Hempty Hb] | [Hne Hb]]; rewrite Hb.
    + destruct H as [[Hne _] | [_ Hrate]]; [contradiction|].
      cbn [bind]. exact (rate_throws_back _ _ _ _ Hrate).
    + destruct H as [[_ Hp] | [[Hempty | [b Hp]] Hrate]].
      * rewrite Hp. reflexivity.
      * contradiction.
      * rewrite Hp. cbn [bind]. exact (rate_throws_back _ _ _ _ Hrate).
Qed.

Lemma interestEarned_throws_iff_witness :
  interestEarned
    {| latestExchangeRate := [];
       fallback := [];
       now := Some [earned "7000" "5000.5" "200" ""];
       then_ := None |} = Throw TypeError.
Proof.
  apply (proj2 (interestEarned_throws_iff _ TypeError)).
  exists (earned "7000" "5000.5" "200" ""), [].
  split; [reflexivity|]. right. split; [left; reflexivity|]. left.
  split; reflexivity.
Defined.

End EarnExtras.

(* ================================================================= *)
(** * Rounding, and further properties of [sellFromSimulation] *)
(* ================================================================= *)

Section Rounding.

Import BigJs.

Lemma Qmake_pow10 z n : z # pow10 n == inject_Z z / inject_Z (Zpos (pow10 n)).
Proof. apply Qmake_Qdiv. Qed.

Lemma pow10_Qpos n : 0 < inject_Z (Zpos (pow10 n)).
Proof. unfold Qlt. simpl. lia. Qed.

Lemma roundHalfUp_error dp q :
  Qabs (roundHalfUp dp q - q) <= 1 # (2 * pow10 dp).
Proof.
  unfold roundHalfUp.
  set (P := inject_Z (Zpos (pow10 dp))).
  assert (HP : 0 < P) by apply pow10_Qpos.
  change (Zpos (pow10 dp) # 1) with P.
  set (n := Qfloor (Qabs q * P + (1 # 2))).
  pose proof (Qfloor_le (Qabs q * P + (1 # 2))) as Hlo.
  pose proof (Qlt_floor (Qabs q * P + (1 # 2))) as Hhi.
  fold n in Hlo, Hhi. rewrite inject_Z_plus in Hhi.
  change (inject_Z 1) with 1 in Hhi.
  rewrite Qmake_pow10. fold P.
  assert (Hb : (1 # (2 * pow10 dp)) == (1 # 2) / P).
  { unfold P. rewrite (Qmake_Qdiv 1 (2 * pow10 dp)).
    rewrite Pos2Z.inj_mul, inject_Z_mult. field.
    pose proof (pow10_Qpos dp). lra. }
  rewrite Hb.
  assert (Hcore : forall d, Qabs d <= 1 # 2 -> Qabs (d / P) <= (1 # 2) / P).
  { intros d Hd. unfold Qdiv. rewrite Qabs_Qmult.
    rewrite (Qabs_pos (/ P)) by (apply Qlt_le_weak, Qinv_lt_0_compat, HP).
    apply Qmult_le_compat_r; [exact Hd|].
    apply Qlt_le_weak, Qinv_lt_0_compat, HP. }
  destruct q as [a b]. cbn [Qnum].
  destruct a as [|a|a]; cbn [Z.sgn].
  - (* zero *)
    assert (E : inject_Z (0 * n) / P - (0 # b) == 0).
    { rewrite Z.mul_0_l. setoid_replace (0 # b) with 0 by reflexivity.
      field. lra. }
    rewrite E. change (Qabs 0) with 0.
    apply Qle_shift_div_l; [exact HP|]. lra.
  - setoid_replace (inject_Z (1 * n) / P - (Zpos a # b))
      with ((inject_Z n - Qabs (Zpos a # b) * P) / P).
    + apply Hcore. apply Qabs_case; intros; lra.
    + rewrite Z.mul_1_l. change (Qabs (Zpos a # b)) with (Zpos a # b).
      field. lra.
  - setoid_replace (inject_Z (-1 * n) / P - (Zneg a # b))
      with ((- (inject_Z n - Qabs (Zneg a # b) * P)) / P).
    + apply Hcore. apply Qabs_case; intros; lra.
    + change (Qabs (Zneg a # b)) with (Zpos a # b).
      replace (-1 * n)%Z with (- n)%Z by lia. rewrite inject_Z_opp.
      setoid_replace (Zneg a # b) with (- (Zpos a # b)) by reflexivity.
      field. lra.
Qed.

Lemma Qfloor_half z : Qfloor (inject_Z z + (1 # 2)) = z.
Proof.
  unfold Qplus, inject_Z, Qfloor. cbn [Qnum Qden].
  change (Zpos (1 * 2)) with 2%Z. Z.div_mod_to_equations. lia.
Qed.

(** Rounding at [dp] places does not pass a number that has no more than
    [dp] decimal places. *)
Lemma roundHalfUp_le_grid dp x (a : Big) :
  0 <= x -> x <= toQ a -> (scale a <= dp)%nat ->
  roundHalfUp dp x <= toQ a.
Proof.
  intros H0 Hxa Hs. unfold roundHalfUp.
  set (P := inject_Z (Zpos (pow10 dp))).
  assert (HP : 0 < P) by apply pow10_Qpos.
  change (Zpos (pow10 dp) # 1) with P.
  rewrite (Qabs_pos x H0).
  set (A := (coef a * Zpos (pow10 (dp - scale a)))%Z).
  assert (HA : toQ a == A # pow10 dp).
  { assert (E : Zpos (pow10 dp) =
                 (Zpos (pow10 (dp - scale a)) * Zpos (pow10 (scale a)))%Z)
      by (rewrite <- pow10_add; do 2 f_equal; lia).
    unfold toQ, A, Qeq. cbn [Qnum Qden]. rewrite E. ring. }
  assert (HAP : toQ a * P == inject_Z A).
  { rewrite HA, Qmake_pow10. fold P. field. lra. }
  assert (Hn : (Qfloor (x * P + (1 # 2)) <= A)%Z).
  { rewrite <- (Qfloor_half A). apply Qfloor_resp_le.
    rewrite <- HAP. apply Qplus_le_l. apply Qmult_le_compat_r; lra. }
  assert (Hn0 : (0 <= Qfloor (x * P + (1 # 2)))%Z).
  { change 0%Z with (Qfloor 0). apply Qfloor_resp_le.
    assert (0 <= x * P) by (apply Qmult_le_0_compat; lra). lra. }
  assert (Hsg : (0 <= Z.sgn (Qnum x) <= 1)%Z).
  { assert (0 <= Qnum x)%Z.
    { unfold Qle in H0. cbn [Qnum Qden] in H0. lia. }
    lia. }
  rewrite HA. unfold Qle. cbn [Qnum Qden].
  apply Z.mul_le_mono_nonneg_r; [lia|]. nia.
Qed.

End Rounding.

Section SellEval.

Import BigJs SellFromSimulation.

Lemma toQ_zero_coef b : toQ b == 0 -> coef b = 0%Z.
Proof. unfold toQ, Qeq. cbn [Qnum Qden]. lia. Qed.

Lemma Bdiv_ok_iff x y : (exists q, Bdiv x y = Ok q) <-> coef y <> 0%Z.
Proof.
  unfold Bdiv. destruct (Z.eqb_spec (coef y) 0) as [E|E].
  - split; [intros [q [=]]|contradiction].
  - split; [auto|eauto].
Qed.

Lemma Bdiv_zero x y : coef y = 0%Z -> Bdiv x y = Throw DivisionByZero.
Proof. intros E. unfold Bdiv. now rewrite E. Qed.

(** What [taxOf] needs to return. *)
Lemma taxOf_ok_inv amount t tax :
  taxOf amount t = Ok tax ->
  exists a tr mt,
    parse amount = Ok a /\ parse (taxRate t) = Ok tr /\
    parse (maxTaxUUSD t) = Ok mt /\ ~ 1 + toQ tr == 0.
Proof.
  unfold taxOf, plus, minus, div. cbn [big].
  destruct (parse amount) as [a|]; [|discriminate]. cbn [bind].
  change (parse "1") with (Ok (mkBig 1 0)). cbn [bind].
  destruct (parse (taxRate t)) as [tr|]; [|discriminate]. cbn [bind].
  destruct (Bdiv a (Badd (mkBig 1 0) tr)) as [q|] eqn:Hq; [|discriminate].
  cbn [bind]. unfold BigMath.min. cbn [big bind].
  destruct (parse (maxTaxUUSD t)) as [mt|]; [|discriminate]. intros _.
  exists a, tr, mt. repeat split.
  intros E. assert (Hd : coef (Badd (mkBig 1 0) tr) <> 0%Z)
    by (apply (proj1 (Bdiv_ok_iff a _)); eauto).
  apply Hd, toQ_zero_coef. rewrite toQ_Badd, toQ_one. exact E.
Qed.

(** The record that is returned, field by field. *)
Lemma sellFromSimulation_eval simulation amount t fixedGas
    (a ra sa ca fg bp tax : Big) :
  parse amount = Ok a ->
  parse (return_amount simulation) = Ok ra ->
  parse (spread_amount simulation) = Ok sa ->
  parse (commission_amount simulation) = Ok ca ->
  big fixedGas = Ok fg ->
  Bdiv a ra = Ok bp ->
  taxOf amount t = Ok tax ->
  sellFromSimulation simulation amount t fixedGas =
    Ok {| sim_return_amount := return_amount simulation;
          sim_spread_amount := spread_amount simulation;
          sim_commission_amount := commission_amount simulation;
          minimumReceived :=
            toFixed (Bmul (Bsub ra tax) (Bsub (mkBig 1 0) (mkBig 1 1)));
          swapFee := toFixed (Badd ca sa);
          beliefPrice := toFixed bp;
          maxSpread := "0.1";
          txFee := toFixed (Badd tax fg);
          fromAmount := toString (Bmul a bp) |}.
Proof.
  intros Ha Hra Hsa Hca Hfg Hbp Htax.
  unfold sellFromSimulation, plus, minus, mul, div.
  cbn [big]. rewrite Ha. cbn [bind]. rewrite Hra. cbn [bind].
  rewrite Hbp. cbn [bind]. rewrite Htax. cbn [bind].
  change (parse "1") with (Ok (mkBig 1 0)).
  change (parse "0.1") with (Ok (mkBig 1 1)). cbn [bind].
  rewrite Hca. cbn [bind]. rewrite Hsa. cbn [bind].
  rewrite Hfg. reflexivity.
Qed.

(** What [sellFromSimulation] needs to return. *)
Lemma sellFromSimulation_ok_inv simulation amount t fixedGas r :
  sellFromSimulation simulation amount t fixedGas = Ok r ->
  exists a ra sa ca fg bp tax,
    parse amount = Ok a /\
    parse (return_amount simulation) = Ok ra /\
    parse (spread_amount simulation) = Ok sa /\
    parse (commission_amount simulation) = Ok ca /\
    big fixedGas = Ok fg /\
    Bdiv a ra = Ok bp /\
    taxOf amount t = Ok tax.
Proof.
  unfold sellFromSimulation, plus, minus, mul, div. cbn [big].
  destruct (parse amount) as [a|]; [|discriminate]. cbn [bind].
  destruct (parse (return_amount simulation)) as [ra|]; [|discriminate].
  cbn [bind].
  destruct (Bdiv a ra) as [bp|] eqn:Hbp; [|discriminate]. cbn [bind].
  destruct (taxOf amount t) as [tax|]; [|discriminate]. cbn [bind].
  change (parse "1") with (Ok (mkBig 1 0)).
  change (parse "0.1") with (Ok (mkBig 1 1)). cbn [bind].
  destruct (parse (commission_amount simulation)) as [ca|]; [|discriminate].
  cbn [bind].
  destruct (parse (spread_amount simulation)) as [sa|]; [|discriminate].
  cbn [bind].
  destruct (big fixedGas) as [fg|]; [|discriminate]. intros _.
  exists a, ra, sa, ca, fg, bp, tax. repeat split. exact Hbp.
Qed.

(** The record and the value of its local [tax], under the conditions for
    a return. *)
Lemma sellFromSimulation_with_tax simulation amount t fixedGas
    (a ra sa ca tr mt fg : Big) :
  parse amount = Ok a ->
  parse (return_amount simulation) = Ok ra ->
  parse (spread_amount simulation) = Ok sa ->
  parse (commission_amount simulation) = Ok ca ->
  parse (taxRate t) = Ok tr ->
  parse (maxTaxUUSD t) = Ok mt ->
  big fixedGas = Ok fg ->
  ~ toQ ra == 0 ->
  ~ 1 + toQ tr == 0 ->
  exists r bp tax,
    sellFromSimulation simulation amount t fixedGas = Ok r /\
    toQ bp == roundHalfUp DP (toQ a / toQ ra) /\
    toQ tax ==
      Qmin (toQ a - roundHalfUp DP (toQ a / (1 + toQ tr))) (toQ mt) /\
    denotes (beliefPrice r) (toQ bp) /\
    denotes (txFee r) (toQ tax + toQ fg) /\
    denotes (minimumReceived r) ((toQ ra - toQ tax) * (9 # 10)).
Proof.
  intros Ha Hra Hsa Hca Htr Hmt Hfg Hnz Htz.
  assert (Hd : coef ra <> 0%Z).
  { intros E. apply Hnz. now apply coef_zero_toQ. }
  destruct (toQ_Bdiv a ra Hd) as [bp [Hbp Vbp]].
  destruct (taxOf_value amount t a tr mt Ha Htr Hmt Htz) as [tax [Htax Vtax]].
  eexists. exists bp, tax.
  split; [exact (sellFromSimulation_eval _ _ _ _ _ _ _ _ _ _ _
                   Ha Hra Hsa Hca Hfg Hbp Htax)|].
  cbn [beliefPrice txFee minimumReceived].
  split; [exact Vbp|]. split; [exact Vtax|].
  split; [apply denotes_toFixed|]. split.
  - eapply denotes_comp; [apply denotes_toFixed|]. apply toQ_Badd.
  - eapply denotes_comp; [apply denotes_toFixed|].
    rewrite toQ_Bmul, !toQ_Bsub. reflexivity.
Qed.

End SellEval.

Section SellExtras.

Import BigJs SellFromSimulation SellSamples.

(** X8.  [sellFromSimulation] returns a record exactly when big.js accepts
    all seven inputs, [return_amount] is not zero and [taxRate] is not
    [-1]; in every other case it throws. *)
Theorem sellFromSimulation_returns_iff (simulation : SimulationResponse)
    (amount : string) (t : TaxData) (fixedGas : BigSource) :
  (exists r, sellFromSimulation simulation amount t fixedGas = Ok r) <->
  (exists a ra sa ca tr mt fg,
     parse amount = Ok a /\
     parse (return_amount simulation) = Ok ra /\
     parse (spread_amount simulation) = Ok sa /\
     parse (commission_amount simulation) = Ok ca /\
     parse (taxRate t) = Ok tr /\
     parse (maxTaxUUSD t) = Ok mt /\
     big fixedGas = Ok fg /\
     ~ toQ ra == 0 /\ ~ 1 + toQ tr == 0).
Proof.
  split.
  - intros [r H].
    destruct (sellFromSimulation_ok_inv _ _ _ _ _ H)
      as [a [ra [sa [ca [fg [bp [tax [Ha [Hra [Hsa [Hca [Hfg [Hbp Htax]]]]]]]]]]]]].
    destruct (taxOf_ok_inv _ _ _ Htax) as [a' [tr [mt [_ [Htr [Hmt Hnz]]]]]].
    exists a, ra, sa, ca, tr, mt, fg. repeat split; try assumption.
    intros E. apply toQ_zero_coef in E.
    rewrite (Bdiv_zero a ra E) in Hbp. discriminate.
  - intros [a [ra [sa [ca [tr [mt [fg
      [Ha [Hra [Hsa [Hca [Htr [Hmt [Hfg [Hnz Htz]]]]]]]]]]]]]]].
    assert (Hd : coef ra <> 0%Z).
    { intros E. apply Hnz. now apply coef_zero_toQ. }
    destruct (proj2 (Bdiv_ok_iff a ra) Hd) as [bp Hbp].
    destruct (taxOf_value amount t a tr mt Ha Htr Hmt Htz) as [tax [Htax _]].
    eexists. exact (sellFromSimulation_eval _ _ _ _ _ _ _ _ _ _ _
                      Ha Hra Hsa Hca Hfg Hbp Htax).
Qed.

Lemma sellFromSimulation_returns_iff_witness :
  exists a ra sa ca tr mt fg,
    parse "1000000" = Ok a /\
    parse (return_amount sim_3m) = Ok ra /\
    parse (spread_amount sim_3m) = Ok sa /\
    parse (commission_amount sim_3m) = Ok ca /\
    parse (taxRate tax_05) = Ok tr /\
    parse (maxTaxUUSD tax_05) = Ok mt /\
    big (SrcString "250000") = Ok fg /\
    ~ toQ ra == 0 /\ ~ 1 + toQ tr == 0.
Proof.
  apply (proj1 (sellFromSimulation_returns_iff sim_3m "1000000" tax_05
                  (SrcString "250000"))).
  eexists. vm_compute. reflexivity.
Defined.

(** X9.  With an amount that big.js accepts, a [return_amount] that is
    zero makes [sellFromSimulation] throw big.js' division by zero,
    whatever the tax data and the gas are; and so does a [taxRate] of [-1]
    when [return_amount] is not zero. *)
Theorem sellFromSimulation_division_by_zero (simulation : SimulationResponse)
    (amount : string) (t : TaxData) (fixedGas : BigSource) (a ra : Big) :
  parse amount = Ok a ->
  parse (return_amount simulation) = Ok ra ->
  (toQ ra == 0 ->
   sellFromSimulation simulation amount t fixedGas = Throw DivisionByZero) /\
  (forall tr, ~ toQ ra == 0 -> parse (taxRate t) = Ok tr -> 1 + toQ tr == 0 ->
   sellFromSimulation simulation amount t fixedGas = Throw DivisionByZero).
Proof.
  intros Ha Hra. split.
  - intros E. apply toQ_zero_coef in E.
    unfold sellFromSimulation, div. cbn [big]. rewrite Ha. cbn [bind].
    rewrite Hra. cbn [bind]. rewrite (Bdiv_zero a ra E). reflexivity.
  - intros tr Hnz Htr E.
    assert (Hd : coef ra <> 0%Z).
    { intros E'. apply Hnz. now apply coef_zero_toQ. }
    destruct (proj2 (Bdiv_ok_iff a ra) Hd) as [bp Hbp].
    unfold sellFromSimulation, div. cbn [big]. rewrite Ha. cbn [bind].
    rewrite Hra. cbn [bind]. rewrite Hbp. cbn [bind].
    unfold taxOf, plus, div. cbn [big]. rewrite Ha. cbn [bind].
    change (parse "1") with (Ok (mkBig 1 0)). cbn [bind].
    rewrite Htr. cbn [bind].
    rewrite Bdiv_zero; [reflexivity|].
    apply toQ_zero_coef. rewrite toQ_Badd, toQ_one. exact E.
Qed.

Lemma sellFromSimulation_division_by_zero_witness :
  sellFromSimulation sim_zero "1000000" tax_unreadable (SrcString "gas")
  = Throw DivisionByZero /\
  sellFromSimulation sim_3m "1000000" tax_minus_one (SrcString "250000")
  = Throw DivisionByZero.
Proof.
  split.
  - destruct (sellFromSimulation_division_by_zero sim_zero "1000000"
                tax_unreadable (SrcString "gas")
                (mkBig 1000000 0) (mkBig 0 2) eq_refl eq_refl) as [H _].
    apply H. reflexivity.
  - destruct (sellFromSimulation_division_by_zero sim_3m "1000000"
                tax_minus_one (SrcString "250000")
                (mkBig 1000000 0) (mkBig 3000000 0) eq_refl eq_refl) as [_ H].
    apply (H (mkBig (-1) 0)).
    + intros E. vm_compute in E. discriminate E.
    + reflexivity.
    + reflexivity.
Defined.

(** X10.  The tax that [sellFromSimulation] charges never exceeds
    [maxTaxUUSD]: whenever it returns, [txFee] is at most
    [maxTaxUUSD + fixedGas] and [minimumReceived] is at least
    [(return_amount - maxTaxUUSD) * 0.9]. *)
Theorem sellFromSimulation_tax_cap (simulation : SimulationResponse)
    (amount : string) (t : TaxData) (fixedGas : BigSource)
    (a ra sa ca tr mt fg : Big) :
  parse amount = Ok a ->
  parse (return_amount simulation) = Ok ra ->
  parse (spread_amount simulation) = Ok sa ->
  parse (commission_amount simulation) = Ok ca ->
  parse (taxRate t) = Ok tr ->
  parse (maxTaxUUSD t) = Ok mt ->
  big fixedGas = Ok fg ->
  ~ toQ ra == 0 ->
  ~ 1 + toQ tr == 0 ->
  exists r fee received,
    sellFromSimulation simulation amount t fixedGas = Ok r /\
    denotes (txFee r) fee /\ fee <= toQ mt + toQ fg /\
    denotes (minimumReceived r) received /\
    (toQ ra - toQ mt) * (9 # 10) <= received.
Proof.
  intros Ha Hra Hsa Hca Htr Hmt Hfg Hnz Htz.
  destruct (sellFromSimulation_with_tax simulation amount t fixedGas
              a ra sa ca tr mt fg Ha Hra Hsa Hca Htr Hmt Hfg Hnz Htz)
    as [r [bp [tax [Hr [_ [Vtax [_ [Hfee Hrec]]]]]]]].
  assert (Hcap : toQ tax <= toQ mt) by (rewrite Vtax; apply Q.le_min_r).
  exists r, (toQ tax + toQ fg), ((toQ ra - toQ tax) * (9 # 10)).
  repeat split; try assumption; lra.
Qed.

Lemma sellFromSimulation_tax_cap_witness :
  exists r fee received,
    sellFromSimulation sim_3m "1000000" tax_05 (SrcString "250000") = Ok r /\
    denotes (txFee r) fee /\ fee <= 3500000 + 250000 /\
    denotes (minimumReceived r) received /\
    (3000000 - 3500000) * (9 # 10) <= received.
Proof.
  exact (sellFromSimulation_tax_cap sim_3m "1000000" tax_05
           (SrcString "250000")
           (mkBig 1000000 0) (mkBig 3000000 0) (mkBig 12 0)
           (mkBig 9000 0) (mkBig 5 3) (mkBig 3500000 0) (mkBig 250000 0)
           eq_refl eq_refl eq_refl eq_refl eq_refl eq_refl eq_refl
           (fun H => Z.neq_sym _ _ (Z.lt_neq 0 3000000 eq_refl) H)
           (fun H => Z.neq_sym _ _ (Z.lt_neq 0 1005 eq_refl) H)).
Defined.

(** X11.  For an amount that is not negative and has at most 20 decimal
    places, a tax rate and a tax cap that are not negative, the tax is not
    negative either: [txFee] is at least [fixedGas], and
    [minimumReceived] is at most [return_amount * 0.9]. *)
Theorem sellFromSimulation_tax_nonneg (simulation : SimulationResponse)
    (amount : string) (t : TaxData) (fixedGas : BigSource)
    (a ra sa ca tr mt fg : Big) :
  parse amount = Ok a ->
  parse (return_amount simulation) = Ok ra ->
  parse (spread_amount simulation) = Ok sa ->
  parse (commission_amount simulation) = Ok ca ->
  parse (taxRate t) = Ok tr ->
  parse (maxTaxUUSD t) = Ok mt ->
  big fixedGas = Ok fg ->
  ~ toQ ra == 0 ->
  0 <= toQ a -> (scale a <= DP)%nat -> 0 <= toQ tr -> 0 <= toQ mt ->
  exists r fee received,
    sellFromSimulation simulation amount t fixedGas = Ok r /\
    denotes (txFee r) fee /\ toQ fg <= fee /\
    denotes (minimumReceived r) received /\
    received <= toQ ra * (9 # 10).
Proof.
  intros Ha Hra Hsa Hca Htr Hmt Hfg Hnz Ha0 Hsc Htr0 Hmt0.
  assert (Htz : ~ 1 + toQ tr == 0) by (intros E; lra).
  destruct (sellFromSimulation_with_tax simulation amount t fixedGas
              a ra sa ca tr mt fg Ha Hra Hsa Hca Htr Hmt Hfg Hnz Htz)
    as [r [bp [tax [Hr [_ [Vtax [_ [Hfee Hrec]]]]]]]].
  assert (Hq0 : 0 <= toQ a / (1 + toQ tr)).
  { apply Qle_shift_div_l; lra. }
  assert (Hqa : toQ a / (1 + toQ tr) <= toQ a).
  { apply Qle_shift_div_r; [lra|].
    assert (0 <= toQ a * toQ tr) by (apply Qmult_le_0_compat; assumption).
    lra. }
  pose proof (roundHalfUp_le_grid DP _ a Hq0 Hqa Hsc) as Hround.
  assert (Htax0 : 0 <= toQ tax).
  { rewrite Vtax. apply Q.min_glb; lra. }
  exists r, (toQ tax + toQ fg), ((toQ ra - toQ tax) * (9 # 10)).
  repeat split; try assumption; lra.
Qed.

Lemma sellFromSimulation_tax_nonneg_witness :
  exists r fee received,
    sellFromSimulation sim_3m "1000000" tax_05 (SrcString "250000") = Ok r /\
    denotes (txFee r) fee /\ 250000 <= fee /\
    denotes (minimumReceived r) received /\
    received <= 3000000 * (9 # 10).
Proof.
  apply (sellFromSimulation_tax_nonneg sim_3m "1000000" tax_05
           (SrcString "250000")
           (mkBig 1000000 0) (mkBig 3000000 0) (mkBig 12 0)
           (mkBig 9000 0) (mkBig 5 3) (mkBig 3500000 0) (mkBig 250000 0));
    try reflexivity; try discriminate;
    try (intros H; vm_compute in H; discriminate H);
    unfold DP; simpl; lia.
Defined.

(** X12.  The [beliefPrice] that is returned differs from the exact
    quotient [amount / return_amount] by at most half a unit of the
    twentieth decimal place. *)
Theorem sellFromSimulation_beliefPrice_error (simulation : SimulationResponse)
    (amount : string) (t : TaxData) (fixedGas : BigSource)
    (a ra sa ca tr mt fg : Big) :
  parse amount = Ok a ->
  parse (return_amount simulation) = Ok ra ->
  parse (spread_amount simulation) = Ok sa ->
  parse (commission_amount simulation) = Ok ca ->
  parse (taxRate t) = Ok tr ->
  parse (maxTaxUUSD t) = Ok mt ->
  big fixedGas = Ok fg ->
  ~ toQ ra == 0 ->
  ~ 1 + toQ tr == 0 ->
  exists r price,
    sellFromSimulation simulation amount t fixedGas = Ok r /\
    denotes (beliefPrice r) price /\
    Qabs (price - toQ a / toQ ra) <= 1 # (2 * pow10 20).
Proof.
  intros Ha Hra Hsa Hca Htr Hmt Hfg Hnz Htz.
  destruct (sellFromSimulation_with_tax simulation amount t fixedGas
              a ra sa ca tr mt fg Ha Hra Hsa Hca Htr Hmt Hfg Hnz Htz)
    as [r [bp [tax [Hr [Vbp [_ [Hprice _]]]]]]].
  exists r, (toQ bp). split; [exact Hr|]. split; [exact Hprice|].
  rewrite Vbp. apply (roundHalfUp_error DP).
Qed.

Lemma sellFromSimulation_beliefPrice_error_witness :
  exists r price,
    sellFromSimulation sim_3 "1" tax_0 (SrcString "0") = Ok r /\
    denotes (beliefPrice r) price /\
    Qabs (price - 1 / 3) <= 1 # (2 * pow10 20).
Proof.
  apply (sellFromSimulation_beliefPrice_error sim_3 "1" tax_0 (SrcString "0")
           (mkBig 1 0) (mkBig 3 0) (mkBig 0 0) (mkBig 0 0)
           (mkBig 0 0) (mkBig 0 0) (mkBig 0 0));
    try reflexivity; intros H; vm_compute in H; discriminate H.
Defined.

(** X16.  The [fromAmount] that is returned is the print of
    [amount * beliefPrice], the amount times the rounded quotient
    [amount / return_amount], computed exactly; big.js reads it back as
    that number, whether it was printed in plain or in exponential
    notation. *)
Theorem sellFromSimulation_fromAmount (simulation : SimulationResponse)
    (amount : string) (t : TaxData) (fixedGas : BigSource)
    (a ra sa ca tr mt fg : Big) :
  parse amount = Ok a ->
  parse (return_amount simulation) = Ok ra ->
  parse (spread_amount simulation) = Ok sa ->
  parse (commission_amount simulation) = Ok ca ->
  parse (taxRate t) = Ok tr ->
  parse (maxTaxUUSD t) = Ok mt ->
  big fixedGas = Ok fg ->
  ~ toQ ra == 0 ->
  ~ 1 + toQ tr == 0 ->
  exists r price,
    sellFromSimulation simulation amount t fixedGas = Ok r /\
    denotes (beliefPrice r) price /\
    denotes (fromAmount r) (toQ a * price) /\
    price == roundHalfUp DP (toQ a / toQ ra).
Proof.
  intros Ha Hra Hsa Hca Htr Hmt Hfg Hnz Htz.
  assert (Hd : coef ra <> 0%Z).
  { intros E. apply Hnz. now apply coef_zero_toQ. }
  destruct (toQ_Bdiv a ra Hd) as [bp [Hbp Vbp]].
  destruct (taxOf_value amount t a tr mt Ha Htr Hmt Htz) as [tax [Htax _]].
  eexists. exists (toQ bp).
  split; [exact (sellFromSimulation_eval _ _ _ _ _ _ _ _ _ _ _
                   Ha Hra Hsa Hca Hfg Hbp Htax)|].
  cbn [beliefPrice fromAmount].
  split; [apply denotes_toFixed|]. split; [|exact Vbp].
  eapply denotes_comp; [apply denotes_toString|]. apply toQ_Bmul.
Qed.

Lemma sellFromSimulation_fromAmount_witness :
  exists r price,
    sellFromSimulation sim_3m "1000000" tax_05 (SrcString "250000") = Ok r /\
    denotes (beliefPrice r) price /\
    denotes (fromAmount r) (1000000 * price) /\
    price == roundHalfUp DP (1000000 / 3000000).
Proof.
  apply (sellFromSimulation_fromAmount sim_3m "1000000" tax_05
           (SrcString "250000")
           (mkBig 1000000 0) (mkBig 3000000 0) (mkBig 12 0)
           (mkBig 9000 0) (mkBig 5 3) (mkBig 3500000 0) (mkBig 250000 0));
    try reflexivity; intros H; vm_compute in H; discriminate H.
Defined.

End SellExtras.

(* ================================================================= *)
(** * Properties of the routes of [App] and of the query variables *)
(* ================================================================= *)

Section AppExtras.

Import App.

Variable govPathname : string.
Variable matchPath : string -> string -> bool.

Lemma Switch_children_cases isDemo location :
  Switch matchPath (children govPathname isDemo) location =
    if matchPath location "/earn" then Some (Route "/earn" Earn)
    else if matchPath location "/borrow" then Some (Route "/borrow" Borrow)
    else if matchPath location "/bond" then Some (Route "/bond" BAsset)
    else if matchPath location "/airdrop" then Some (Route "/airdrop" Airdrop)
    else if negb isDemo && matchPath location ("/" ++ govPathname)
         then Some (Route ("/" ++ govPathname) Governance)
    else Some (Redirect "/earn").
Proof.
  unfold Switch, children. cbn [find matches].
  destruct (matchPath location "/earn"); [reflexivity|].
  destruct (matchPath location "/borrow"); [reflexivity|].
  destruct (matchPath location "/bond"); [reflexivity|].
  destruct (matchPath location "/airdrop"); [reflexivity|].
  destruct isDemo; cbn [negb andb matches]; [reflexivity|].
  destruct (matchPath location ("/" ++ govPathname)); reflexivity.
Qed.

End AppExtras.

Section AppClaims.

Import App.

(** X14.  In demo mode the governance page is never shown: whatever the
    location, however react-router matches paths, and however many
    redirects are followed. *)
Theorem demo_never_shows_governance (govPathname : string)
    (matchPath : string -> string -> bool) (hops : nat) (location : string) :
  show govPathname matchPath true hops location <> Shows Governance.
Proof.
  revert location. induction hops as [|hops IH]; intros location;
    cbn [show]; rewrite Switch_children_cases; cbn [negb andb];
    destruct (matchPath location "/earn"); try discriminate;
    destruct (matchPath location "/borrow"); try discriminate;
    destruct (matchPath location "/bond"); try discriminate;
    destruct (matchPath location "/airdrop"); try discriminate.
  apply IH.
Qed.

(** X15.  Provided the location [/earn] matches the route [/earn], every
    location ends on a page after at most one redirect: there is no
    redirect loop and no blank switch; a location that matches no route
    ends on the earn page, and the first route that matches wins. *)
Theorem every_location_shows_a_page (govPathname : string)
    (matchPath : string -> string -> bool) (isDemo : bool) (location : string) :
  matchPath "/earn" "/earn" = true ->
  (exists component,
     show govPathname matchPath isDemo 1 location = Shows component) /\
  (Switch matchPath (children govPathname isDemo) location
     = Some (Redirect "/earn") ->
   show govPathname matchPath isDemo 1 location = Shows Earn) /\
  (matchPath location "/earn" = true ->
   show govPathname matchPath isDemo 0 location = Shows Earn).
Proof.
  intros Hearn.
  assert (Hhome : show govPathname matchPath isDemo 0 "/earn" = Shows Earn).
  { cbn [show]. rewrite Switch_children_cases, Hearn. reflexivity. }
  split; [|split].
  - cbn [show]. fold (show govPathname matchPath isDemo 0 "/earn").
    rewrite Switch_children_cases.
    destruct (matchPath location "/earn"); [eauto|].
    destruct (matchPath location "/borrow"); [eauto|].
    destruct (matchPath location "/bond"); [eauto|].
    destruct (matchPath location "/airdrop"); [eauto|].
    destruct (negb isDemo && matchPath location ("/" ++ govPathname)%string)%bool;
      [eauto|].
    cbn [show]. rewrite Switch_children_cases, Hearn. eauto.
  - intros H. cbn [show]. rewrite H.
    rewrite Switch_children_cases, Hearn. reflexivity.
  - intros H. cbn [show]. rewrite Switch_children_cases, H. reflexivity.
Qed.

Lemma every_location_shows_a_page_witness :
  show "gov" startsWith true 1 "/gov/poll/7" = Shows Earn /\
  show "gov" startsWith false 1 "/gov/poll/7" = Shows Governance.
Proof.
  destruct (every_location_shows_a_page "gov" startsWith true "/gov/poll/7"
              eq_refl) as [_ [H _]].
  split; [apply H; reflexivity | reflexivity].
Defined.

End AppClaims.

Section VariablesExtras.

Import Dates.

Open Scope Z_scope.

(** X13.  The variables that [useInterestEarned] sends never hold an
    inverted time range: for a current time that is not negative and a
    [sub] that does not move it forward, [then <= now] still holds after
    both were cut to whole seconds, [now] is not negative, and for the
    period ['total'] the range starts at 0. *)
Theorem variablesOf_range (sub : Z -> Duration -> Z)
    (clock : Z) (period : Period) (wallet : string) :
  0 <= clock ->
  (forall d, In d [oneYear; oneMonth; oneWeek; oneDay] -> sub clock d <= clock) ->
  let v := variablesOf sub clock period wallet in
  r_then v <= r_now v /\ 0 <= r_now v /\
  (period = total -> r_then v = 0) /\
  r_walletAddress v = wallet.
Proof.
  intros Hclock Hsub v. unfold v, variablesOf, mapVariables, getDates.
  cbn [r_then r_now r_walletAddress now then_ v_now v_then walletAddress].
  split; [|split; [|split]].
  - apply Z.div_le_mono; [lia|].
    destruct period; [exact Hclock|apply Hsub; simpl; auto ..].
  - apply Z.div_pos; lia.
  - intros ->. reflexivity.
  - reflexivity.
Qed.

Lemma variablesOf_range_witness :
  r_then (variablesOf sub_utc 86400999 day "terra1") <=
  r_now (variablesOf sub_utc 86400999 day "terra1").
Proof.
  destruct (variablesOf_range sub_utc 86400999 day "terra1") as [H _].
  - lia.
  - intros d [<-|[<-|[<-|[<-|[]]]]]; apply sub_utc_not_later; simpl; lia.
  - exact H.
Defined.

End VariablesExtras.
(* ================================================================= *)
(** * The quorum label of PollDetail *)
(* ================================================================= *)

Section QuorumExtras.

Import BigJs PollDetail.

(** X17.  [PollDetailBase] renders the quorum label only with a poll, a
    [govConfig] and a last synced height that is not 0, so the default of
    [govConfig?.quorum ?? 0] is never what the label shows; and for a
    quorum that big.js accepts and that lies between 0 and 1, the number
    of the label is the print of a whole number between 0 and 100, the
    floor of a hundred times the quorum. *)
Theorem quorumLabel_range (Poll Detail : Type)
    (extractPollDetail : Poll -> GovConfig -> Z -> Detail)
    (poll : option Poll) (govConfig : option GovConfig)
    (lastSyncedHeight : option Z) (r : result string) :
  quorumLabel Poll Detail extractPollDetail poll govConfig lastSyncedHeight
    = Some r ->
  exists p g h,
    poll = Some p /\ govConfig = Some g /\
    lastSyncedHeight = Some h /\ h <> 0%Z /\
    forall q, parse (quorum g) = Ok q -> 0 <= toQ q <= 1 ->
      exists z,
        r = Ok (toString (mkBig z 0)) /\
        denotes (toString (mkBig z 0)) (inject_Z z) /\
        z = Qfloor (toQ q * 100) /\ (0 <= z <= 100)%Z.
Proof.
  unfold quorumLabel, pollDetailOf.
  destruct poll as [p|]; [|discriminate].
  destruct govConfig as [g|]; [|discriminate].
  destruct lastSyncedHeight as [h|]; [|discriminate].
  destruct (h =? 0)%Z eqn:Eh; [discriminate|].
  intros [= <-]. exists p, g, h.
  repeat (split; [reflexivity|]).
  split; [now apply Z.eqb_neq|].
  intros q Hq [H0 H1].
  exists (Qfloor (toQ q * 100)).
  assert (Hz : BigMath.Qtrunc (toQ (Bmul q (mkBig 100 0))) = Qfloor (toQ q * 100)).
  { rewrite Qtrunc_nonneg.
    - apply Qfloor_comp. rewrite toQ_Bmul. reflexivity.
    - rewrite toQ_Bmul. change (toQ (mkBig 100 0)) with (100 # 1). lra. }
  split; [|split; [|split]].
  - unfold quorumPercent, mul. cbn [big]. rewrite Hq. cbn [bind big].
    change (parse "100") with (Ok (mkBig 100 0)). cbn [bind].
    rewrite floor_Qtrunc. cbn [bind]. now rewrite Hz.
  - eapply denotes_comp; [apply denotes_toString|]. reflexivity.
  - reflexivity.
  - split.
    + apply (Qfloor_resp_le 0). lra.
    + apply (Qfloor_resp_le _ 100). lra.
Qed.

Lemma quorumLabel_range_witness :
  quorumLabel unit unit (fun _ _ _ => tt)
    (Some tt) (Some {| quorum := "0.1" |}) (Some 2000000%Z) = Some (Ok "10").
Proof.
  destruct (quorumLabel_range unit unit (fun _ _ _ => tt)
              (Some tt) (Some {| quorum := "0.1" |}) (Some 2000000%Z)
              (quorumPercent (Some {| quorum := "0.1" |})))
    as [p [g [h [_ [Hg [_ [_ H]]]]]]].
  - reflexivity.
  - injection Hg as <-.
    destruct (H (mkBig 1 1)) as [z [Hr [_ [Hz _]]]].
    + reflexivity.
    + split; discriminate.
    + unfold quorumLabel, pollDetailOf. cbn [Z.eqb]. rewrite Hr, Hz. reflexivity.
Defined.

End QuorumExtras.
